(** * MiaBackend: conversation state and reply pipeline of [index.js]

    A shallow embedding of the Express backend in [src/index.js]: the two
    JSON documents under [historial/], the inactivity watchdog, the context
    composer, the rolling summarizer and the [/chat] and [/reset] handlers.

    Conventions of the embedding.
    - A JavaScript string is a [string] whose characters are UTF-16 code
      units in the range U+0000..U+00FF; every literal the program compares
      against lies in that range ([alegria] with an acute i is written with
      the code unit 237).
    - A JavaScript object used as a map is an association list in the order
      [Object.keys] enumerates it.  The program only ever adds keys of the
      form [conversacion_N], which are never array indices, so enumeration
      order is insertion order.
    - [async] functions become computations in a small monad [M] carrying the
      process state, the chronological list of collaborator invocations and
      a thrown error.  A handler runs to completion; the answers of the
      external collaborators (Whisper, the FastAPI models, the Responses API,
      ElevenLabs, ffmpeg and rhubarb) are part of the request.
    - [Date.now()] readings are part of the input as well.
    - Creating directories, removing [audios/] and writing the two JSON
      documents are taken to succeed; reading a file may fail.  Logging is
      left out. *)

From Stdlib Require Import String Ascii List ZArith Bool Arith Lia.
From Stdlib Require Import Decimal DecimalNat DecimalString.
From Stdlib Require Import Sorted Permutation.
Import ListNotations.
Local Open Scope string_scope.
Local Open Scope nat_scope.

Set Implicit Arguments.

(** ** JavaScript string primitives used by the program *)

Module JsString.

Definition unit_of (n : nat) : string := String (ascii_of_nat n) EmptyString.

(** The double quote U+0022, the backslash U+005C and the line feed
    U+000A. *)
Definition dquote : string := unit_of 34.
Definition bslash : string := unit_of 92.
Definition nl : string := unit_of 10.

(** [String.prototype.toLowerCase] on one code unit below U+0100: the
    basic Latin capitals and the Latin-1 capitals U+00C0..U+00DE except
    the multiplication sign U+00D7. *)
Definition lower_unit (c : ascii) : ascii :=
  let n := nat_of_ascii c in
  if ((65 <=? n) && (n <=? 90))
     || ((192 <=? n) && (n <=? 222) && negb (n =? 215))
  then ascii_of_nat (n + 32) else c.

Fixpoint toLowerCase (s : string) : string :=
  match s with
  | EmptyString => EmptyString
  | String c r => String (lower_unit c) (toLowerCase r)
  end.

(** White space and line terminators below U+0100, as [trim] and
    [parseInt] skip them. *)
Definition is_space (c : ascii) : bool :=
  let n := nat_of_ascii c in
  ((9 <=? n) && (n <=? 13)) || (n =? 32) || (n =? 160).

Fixpoint trimStart (s : string) : string :=
  match s with
  | EmptyString => EmptyString
  | String c r => if is_space c then trimStart r else s
  end.

Fixpoint trimEnd (s : string) : string :=
  match s with
  | EmptyString => EmptyString
  | String c r =>
      match trimEnd r with
      | EmptyString => if is_space c then EmptyString else String c EmptyString
      | r' => String c r'
      end
  end.

Definition trim (s : string) : string := trimEnd (trimStart s).

Definition startsWith (s p : string) : bool := prefix p s.

(** [s.split(sep)] for a one-unit separator; the result is never empty. *)
Fixpoint split (sep : ascii) (s : string) : list string :=
  match s with
  | EmptyString => [EmptyString]
  | String c r =>
      if Ascii.eqb c sep then EmptyString :: split sep r
      else match split sep r with
           | h :: t => String c h :: t
           | [] => [String c EmptyString]
           end
  end.

(** [s.indexOf(c)] for a one-unit needle, [None] for -1. *)
Fixpoint indexOf (c : ascii) (s : string) : option nat :=
  match s with
  | EmptyString => None
  | String d r =>
      if Ascii.eqb d c then Some 0 else option_map S (indexOf c r)
  end.

(** [s.slice(from, to)] for indices already resolved to [0..length]. *)
Definition slice (from to : nat) (s : string) : string :=
  substring from (to - from) s.

(** [x || d] on a string that may be [undefined]. *)
Definition or_default (x : option string) (d : string) : string :=
  match x with
  | Some EmptyString | None => d
  | Some s => s
  end.

Definition digit_val (c : ascii) : option Z :=
  let n := nat_of_ascii c in
  if (48 <=? n) && (n <=? 57) then Some (Z.of_nat (n - 48)) else None.

(** Longest prefix of decimal digits, [None] when there is none. *)
Fixpoint parse_digits (s : string) (acc : option Z) : option Z :=
  match s with
  | EmptyString => acc
  | String c r =>
      match digit_val c with
      | Some d =>
          parse_digits r
            (Some (10 * match acc with Some a => a | None => 0 end + d))%Z
      | None => acc
      end
  end.

(** [Number.MAX_SAFE_INTEGER]: every integer up to it is a double. *)
Definition MAX_SAFE_INTEGER : Z := 2 ^ 53 - 1.

(** [parseInt(s, 10)]; [None] is NaN.  The value is the integer the
    digits denote.  JavaScript returns the nearest double, which is that
    integer as long as its magnitude does not exceed 2^53; the numbers of
    the keys [/chat] writes are key counts and stay far below.  A
    statement about keys written by others carries the bound
    [MAX_SAFE_INTEGER]. *)
Definition parseInt (s : string) : option Z :=
  match trimStart s with
  | String c r =>
      if Ascii.eqb c "-" then option_map Z.opp (parse_digits r None)
      else if Ascii.eqb c "+" then parse_digits r None
      else parse_digits (String c r) None
  | EmptyString => None
  end.

(** Template-literal rendering of a non-negative integer. *)
Definition of_nat (n : nat) : string :=
  NilEmpty.string_of_uint (Nat.to_uint n).

Definition hex_digit (n : nat) : ascii :=
  if n <? 10 then ascii_of_nat (48 + n) else ascii_of_nat (87 + n).

(** [QuoteJSONString] on one code unit below U+0100. *)
Definition json_escape_unit (c : ascii) : string :=
  let n := nat_of_ascii c in
  if n =? 8 then bslash ++ "b"
  else if n =? 9 then bslash ++ "t"
  else if n =? 10 then bslash ++ "n"
  else if n =? 12 then bslash ++ "f"
  else if n =? 13 then bslash ++ "r"
  else if n =? 34 then bslash ++ dquote
  else if n =? 92 then bslash ++ bslash
  else if n <? 32 then
    bslash ++ "u00"
      ++ String (hex_digit (n / 16))
           (String (hex_digit (n mod 16)) EmptyString)
  else String c EmptyString.

Fixpoint json_escape (s : string) : string :=
  match s with
  | EmptyString => EmptyString
  | String c r => json_escape_unit c ++ json_escape r
  end.

(** [JSON.stringify] of a string value. *)
Definition json_quote (s : string) : string :=
  dquote ++ json_escape s ++ dquote.

(** [parts.join(sep)]. *)
Fixpoint join (sep : string) (parts : list string) : string :=
  match parts with
  | [] => EmptyString
  | [p] => p
  | p :: rest => p ++ sep ++ join sep rest
  end.

End JsString.

Import JsString.

(** ** Data model: the two documents and the process globals *)

(** One entry of [historial.json], as [/chat] writes it. *)
Record Turn := {
  user_responde : string;
  sentimiento : string;
  mia_emocion : string;
  mia_text : string }.

(** A JavaScript object with values of type [A], in [Object.keys] order. *)
Definition Obj (A : Type) : Type := list (string * A).

Definition keys {A} (o : Obj A) : list string := map fst o.

(** [o[k]]. *)
Fixpoint obj_get {A} (o : Obj A) (k : string) : option A :=
  match o with
  | [] => None
  | (k', v) :: r => if String.eqb k' k then Some v else obj_get r k
  end.

(** [o[k] = v]: an existing key keeps its place, a new key goes last. *)
Fixpoint obj_set {A} (o : Obj A) (k : string) (v : A) : Obj A :=
  match o with
  | [] => [(k, v)]
  | (k', v') :: r =>
      if String.eqb k' k then (k, v) :: r else (k', v') :: obj_set r k v
  end.

Definition Historial : Type := Obj Turn.

(** The object [maybeUpdateSummary] writes to [historial_resumen.json]. *)
Record Summary := {
  resumen : string;
  updatedAt : Z;
  total_conversaciones : nat }.

(** The content of [historial_resumen.json]: [None] is the empty object
    [{}] that [clearHistorial] writes. *)
Definition SummaryDoc : Type := option Summary.

(** A JSON file on disk: [Unreadable] when it is missing or does not parse. *)
Inductive File (A : Type) : Type :=
| Unreadable
| Stored (doc : A).
Arguments Unreadable {A}.
Arguments Stored {A} doc.

(** Process globals and the files the handlers read and write.
    [intro_files] holds [audios/intro_0.wav] (as base64) and
    [audios/intro_0.json], [None] when they are not in [audios/], as
    after [clearAudios]. *)
Record Session := {
  historial_json : File Historial;
  resumen_json : File SummaryDoc;
  intro_files : option (string * string);
  lastActivity : Z;
  sessionExpired : bool }.

Definition set_historial_json (h : File Historial) (s : Session) : Session :=
  {| historial_json := h; resumen_json := resumen_json s;
     intro_files := intro_files s; lastActivity := lastActivity s;
     sessionExpired := sessionExpired s |}.

Definition set_resumen_json (r : File SummaryDoc) (s : Session) : Session :=
  {| historial_json := historial_json s; resumen_json := r;
     intro_files := intro_files s; lastActivity := lastActivity s;
     sessionExpired := sessionExpired s |}.

Definition set_intro_files (i : option (string * string)) (s : Session)
  : Session :=
  {| historial_json := historial_json s; resumen_json := resumen_json s;
     intro_files := i; lastActivity := lastActivity s;
     sessionExpired := sessionExpired s |}.

Definition set_lastActivity (t : Z) (s : Session) : Session :=
  {| historial_json := historial_json s; resumen_json := resumen_json s;
     intro_files := intro_files s; lastActivity := t;
     sessionExpired := sessionExpired s |}.

Definition set_sessionExpired (b : bool) (s : Session) : Session :=
  {| historial_json := historial_json s; resumen_json := resumen_json s;
     intro_files := intro_files s; lastActivity := lastActivity s;
     sessionExpired := b |}.

(** [process.env]. *)
Record Env := {
  OPENAI_API_KEY : option string;
  ELEVEN_LABS_API_KEY : option string }.

(** One element of the [messages] array of a response. *)
Record Message := {
  text : string;
  audio : option string;
  lipsync : option string;
  facialExpression : string;
  animation : string }.

(** What [/chat] sends back. *)
Inductive Response : Type :=
| RespExpired
    (* 200 { ok: false, sessionExpired: true, messages: [] } *)
| RespReply (transcript sent emo : string) (m : Message)
    (* 200 { ok: true, transcript, sentimiento, mia_emocion, messages: [m] } *)
| RespMessages (ms : list Message)
    (* 200 { messages } *)
| RespError (error : string).
    (* 500 { error } *)

(** ** Collaborators *)

(** An invocation of an external collaborator, with the values the program
    passes.  For the two Responses API calls the fixed instruction text is
    left out and the interpolated values are kept. *)
Inductive Call : Type :=
| Transcription (buffer filename mime : string)
| Sentiment (transcript : string)
| MiaPredict (transcript sent : string)
| ReplyGeneration (resumen recientes transcript sent emo : string)
                  (total : nat)
| Summarization (resumenPrevio : string) (historial : Historial)
| ChatCompletion (userMessage : string)
| TextToSpeech (apiKey : option string) (voice fileName content : string)
| LipSync (messageIndex : nat).

(** The result of an awaited operation that may throw. *)
Inductive Outcome (A : Type) : Type :=
| Ok (a : A)
| Fail (message : string).
Arguments Ok {A} a.
Arguments Fail {A} message.

(** What the collaborators answer during one request.  A field that may be
    absent from a JSON answer is an [option].  [completion] is the chat
    completion already parsed into its message array; the four functions
    take the message index [i] of [audios/message_i.*]. *)
Record Answers := {
  whisper : Outcome (option string);
  sentiment : Outcome (option string);
  mia_predict : Outcome (option string);
  reply : Outcome (option string);
  summary : Outcome (option string);
  completion : Outcome (list Message);
  textToSpeech : nat -> Outcome unit;
  lipSync : nat -> Outcome unit;
  audioFile : nat -> Outcome string;
  lipsyncFile : nat -> Outcome string }.

(** A [POST /chat]: the body's [message] ([None] when absent), the
    collaborators' answers and the clock readings taken while serving it. *)
Record Request := {
  message : option string;
  answers : Answers;
  t_arrival : Z;
  t_gate : Z;
  t_done : Z;
  t_summary : Z }.

(** ** The monad of handlers *)

Record World := {
  session : Session;
  calls : list Call }.

Definition M (A : Type) : Type := World -> World * Outcome A.

Definition ret {A} (a : A) : M A := fun w => (w, Ok a).

Definition throw {A} (msg : string) : M A := fun w => (w, Fail msg).

Definition bind {A B} (m : M A) (k : A -> M B) : M B :=
  fun w =>
    match m w with
    | (w', Ok a) => k a w'
    | (w', Fail e) => (w', Fail e)
    end.

(** [try { m } catch (e) { h e }]: what [m] did before throwing stays. *)
Definition try_catch {A} (m : M A) (h : string -> M A) : M A :=
  fun w =>
    match m w with
    | (w', Ok a) => (w', Ok a)
    | (w', Fail e) => h e w'
    end.

Definition get : M Session := fun w => (w, Ok (session w)).

Definition modify (f : Session -> Session) : M unit :=
  fun w => ({| session := f (session w); calls := calls w |}, Ok tt).

(** Awaiting something that may reject. *)
Definition await {A} (o : Outcome A) : M A := fun w => (w, o).

(** Invoking a collaborator: the call is recorded, then its answer
    awaited. *)
Definition invoke {A} (c : Call) (o : Outcome A) : M A :=
  fun w => ({| session := session w; calls := calls w ++ [c] |}, o).

Declare Scope js_scope.
Delimit Scope js_scope with js.
Notation "x <- m ;; k" := (bind m (fun x => k))
  (at level 61, m at next level, right associativity) : js_scope.
Notation "m ;; k" := (bind m (fun _ => k))
  (at level 61, right associativity) : js_scope.
Local Open Scope js_scope.

(** ** Constants *)

Definition INACTIVITY_MS : Z := 5 * 60 * 1000.
Definition MAX_CONTEXT_CHARS : N := 10000.
Definition RECENT_TURNS : nat := 6.
Definition voiceID : string := "5vkxOzoz40FrElmLP4P7".

(** ** File helpers *)

(** [ensureDirs] creates [historial/] and [audios/] when they are missing;
    it touches no file the model tracks. *)
Definition ensureDirs : M unit := ret tt.

Definition readJsonSafe {A} (f : File A) (fallback : A) : A :=
  match f with
  | Stored d => d
  | Unreadable => fallback
  end.

(** [fs.rm("audios", { recursive: true, force: true })] removes the intro
    files with everything else. *)
Definition clearAudios : M unit := modify (set_intro_files None).

Definition clearHistorial : M unit :=
  modify (set_historial_json (Stored []));;
  modify (set_resumen_json (Stored None)).

Definition resetSession (now : Z) : M unit :=
  clearAudios;;
  clearHistorial;;
  modify (set_sessionExpired false);;
  modify (set_lastActivity now).

(** The activity middleware in front of every route. *)
Definition touch_activity (now : Z) : M unit :=
  s <- get;;
  if negb (sessionExpired s) then modify (set_lastActivity now) else ret tt.

(** The synchronous head of the watchdog callback, up to the first [await]
    inside [resetSession]. *)
Definition watchdog_expire (now : Z) : M bool :=
  s <- get;;
  let idle := (now - lastActivity s)%Z in
  if negb (sessionExpired s) && (INACTIVITY_MS <=? idle)%Z then
    modify (set_sessionExpired true);; ret true
  else ret false.

(** One run of the [setInterval] callback: [now] is read at the test,
    [now'] at the end of [resetSession]. *)
Definition watchdog (now now' : Z) : M unit :=
  fired <- watchdog_expire now;;
  if fired then resetSession now' else ret tt.

(** ** Visuals *)

Definition rotatingTalkingAnimation (conversationIndex : Z) : string :=
  let mod_ := Z.rem conversationIndex 3 in
  if (mod_ =? 0)%Z then "Talking_0"
  else if (mod_ =? 1)%Z then "Talking_1"
  else "Talking_2".

(** The label [alegria] with its acute i, U+00ED. *)
Definition alegria : string := "alegr" ++ unit_of 237 ++ "a".

Record Visuals := {
  v_facialExpression : string;
  v_animation : string }.

(** [mia_emocion] is a string, or [None] for [undefined] and [null]. *)
Definition mapEmotionToVisuals (mia_emocion : option string)
    (conversationIndex : Z) : Visuals :=
  let e := toLowerCase (or_default mia_emocion "default") in
  let facialExpression :=
    if String.eqb e alegria then "smile"
    else if String.eqb e "amor" then "smile"
    else if String.eqb e "tristeza" then "sad"
    else if String.eqb e "ira" then "angry"
    else if String.eqb e "miedo" then "surprised"
    else if String.eqb e "sorpresa" then "surprised"
    else "default" in
  {| v_facialExpression := facialExpression;
     v_animation := rotatingTalkingAnimation conversationIndex |}.

(** ** Context for the language model: summary and last turns *)

Definition is_turn_key (k : string) : bool := startsWith k "conversacion_".

(** [parseInt(k.split("_")[1] || "0", 10)]. *)
Definition key_number (k : string) : option Z :=
  parseInt (or_default (nth_error (split "_" k) 1) "0").

(** The comparator [(a, b) => na - nb]; [None] is NaN. *)
Definition compare_keys (a b : string) : option Z :=
  match key_number a, key_number b with
  | Some na, Some nb => Some (na - nb)%Z
  | _, _ => None
  end.

(** [a] must come after [b]: the comparator is positive (NaN counts as 0). *)
Definition comes_after (a b : string) : bool :=
  match compare_keys a b with
  | Some d => (0 <? d)%Z
  | None => false
  end.

(** [Array.prototype.sort] is stable; on a comparator that is a total
    preorder every stable sort gives the list that insertion gives. *)
Fixpoint sort_insert (k : string) (l : list string) : list string :=
  match l with
  | [] => [k]
  | x :: r => if comes_after k x then x :: sort_insert k r else k :: l
  end.

Fixpoint sort_keys (l : list string) : list string :=
  match l with
  | [] => []
  | k :: r => sort_insert k (sort_keys r)
  end.

(** [a.slice(-n)]. *)
Definition slice_last {A} (n : nat) (l : list A) : list A :=
  skipn (length l - n) l.

Definition recent_keys (historialObj : Historial) : list string :=
  slice_last RECENT_TURNS (sort_keys (filter is_turn_key (keys historialObj))).

(** One iteration of the loop of [formatRecentTurns]. *)
Definition format_turn (historialObj : Historial) (key : string) : string :=
  let c := obj_get historialObj key in
  let u := match c with Some t => user_responde t | None => "" end in
  let m := match c with Some t => mia_text t | None => "" end in
  nl ++ "[" ++ key ++ "]" ++ nl ++ "Usuario: " ++ u ++ nl ++ "MIA: "
     ++ or_default (Some m) "(sin respuesta registrada)" ++ nl.

Definition formatRecentTurns (historialObj : Historial) : string :=
  trim (fold_left (fun acc key => acc ++ format_turn historialObj key)
          (recent_keys historialObj) "").

Record Context := {
  ctx_resumen : string;
  ctx_recientes : string;
  ctx_total_conversaciones : nat }.

Definition summary_text (d : SummaryDoc) : string :=
  match d with
  | Some r => resumen r
  | None => ""
  end.

Definition loadContextForLLM : M Context :=
  s <- get;;
  let historial := readJsonSafe (historial_json s) [] in
  let summary_ := readJsonSafe (resumen_json s) None in
  let recent := formatRecentTurns historial in
  ret {| ctx_resumen := summary_text summary_;
         ctx_recientes := recent;
         ctx_total_conversaciones := length (keys historial) |}.

(** ** Rolling summary *)

(** [JSON.stringify] of one turn and of the whole document, compact form. *)
Definition stringify_turn (t : Turn) : string :=
  "{" ++ json_quote "user_responde" ++ ":" ++ json_quote (user_responde t)
  ++ "," ++ json_quote "sentimiento" ++ ":" ++ json_quote (sentimiento t)
  ++ "," ++ json_quote "mia_emocion" ++ ":" ++ json_quote (mia_emocion t)
  ++ "," ++ json_quote "mia_text" ++ ":" ++ json_quote (mia_text t) ++ "}".

Definition stringify (h : Historial) : string :=
  "{" ++ join ","
           (map (fun kv => json_quote (fst kv) ++ ":" ++ stringify_turn (snd kv))
              h)
      ++ "}".

Definition serialized_length (h : Historial) : N :=
  N.of_nat (String.length (stringify h)).

Definition maybeUpdateSummary (a : Answers) (now : Z) : M unit :=
  s <- get;;
  let historial := readJsonSafe (historial_json s) [] in
  if (serialized_length historial <=? MAX_CONTEXT_CHARS)%N then ret tt
  else
    let summaryCurrent := readJsonSafe (resumen_json s) None in
    let resumenPrevio := summary_text summaryCurrent in
    resp <- invoke (Summarization resumenPrevio historial) (summary a);;
    let resumen_ := trim (or_default resp "") in
    let newSummary :=
      {| resumen := resumen_;
         updatedAt := now;
         total_conversaciones := length (keys historial) |} in
    modify (set_resumen_json (Stored (Some newSummary))).

(** ** The reply pipeline *)

Definition transcribeBufferWithWhisper (a : Answers)
    (buffer filename mime : string) : M string :=
  resp <- invoke (Transcription buffer filename mime) (whisper a);;
  ret (or_default resp "").

(** The message of the [TypeError] that Node's
    [Buffer.from(undefined, "base64")] throws. *)
Definition buffer_type_error : string :=
  "The first argument must be of type string or an instance of Buffer, "
  ++ "ArrayBuffer, or Array or an Array-like Object. Received undefined".

(** [parseDataUrl]: the buffer is kept as its base64 text.  A data URL
    without a comma leaves [base64] undefined and [Buffer.from] throws. *)
Definition parseDataUrl (dataUrl : string)
  : Outcome (string * string * string) :=
  let parts := split "," dataUrl in
  let header := nth 0 parts "" in
  let stop :=
    match indexOf ";" header with
    | Some i => i
    | None => String.length header - 1
    end in
  let mime := or_default (Some (slice 5 stop header)) "audio/webm" in
  let ext := or_default (nth_error (split "/" mime) 1) "webm" in
  match nth_error parts 1 with
  | Some base64 => Ok (base64, mime, ext)
  | None => Fail buffer_type_error
  end.

Definition callLocalSentiment (a : Answers) (transcript : string) : M string :=
  j <- invoke (Sentiment transcript) (sentiment a);;
  ret (toLowerCase (or_default j "")).

Definition callLocalMiaPredict (a : Answers) (transcript sent : string)
  : M string :=
  j <- invoke (MiaPredict transcript sent) (mia_predict a);;
  ret (toLowerCase (or_default j "")).

Definition generateMiaReply (a : Answers) (transcript sent emo : string)
  : M string :=
  c <- loadContextForLLM;;
  resp <- invoke (ReplyGeneration (ctx_resumen c) (ctx_recientes c) transcript
                    sent emo (ctx_total_conversaciones c))
                 (reply a);;
  ret (trim (or_default resp "")).

(** [ffmpeg] then [rhubarb] on [audios/message_i]. *)
Definition lipSyncMessage (a : Answers) (messageIndex : nat) : M unit :=
  invoke (LipSync messageIndex) (lipSync a messageIndex).

Definition message_mp3 (i : nat) : string :=
  "audios/message_" ++ of_nat i ++ ".mp3".

(** The message of the error with which [fs.readFile] rejects when
    [audios/intro_0.wav], the first file the greeting reads, is not
    there. *)
Definition enoent : string :=
  "ENOENT: no such file or directory, open 'audios/intro_0.wav'".

(** [!x] on a string that may be [undefined]. *)
Definition falsy (x : option string) : bool :=
  match x with
  | None | Some EmptyString => true
  | Some _ => false
  end.

Definition next_index (historialActual : Historial) : nat :=
  length (filter is_turn_key (keys historialActual)) + 1.

Definition turn_key (n : nat) : string := "conversacion_" ++ of_nat n.

Section Backend.

Variable env : Env.

Definition openai_apiKey : string := or_default (OPENAI_API_KEY env) "-".
Definition elevenLabsApiKey : option string := ELEVEN_LABS_API_KEY env.

(** CASO 1 of [/chat]: a recorded utterance. *)
Definition chat_audio (rq : Request) (userMessage : string) : M Response :=
  let a := answers rq in
  parsed <- await (parseDataUrl userMessage);;
  let '(buffer, mime, ext) := parsed in
  transcript <- transcribeBufferWithWhisper a buffer ("audio." ++ ext) mime;;
  sent <- try_catch (callLocalSentiment a transcript)
            (fun _ => ret "neutral");;
  emo <- try_catch (callLocalMiaPredict a transcript sent)
           (fun _ => ret "default");;
  s <- get;;
  let historialActual := readJsonSafe (historial_json s) [] in
  let nextIndex := next_index historialActual in
  let nextKey := turn_key nextIndex in
  mia_text_ <- generateMiaReply a transcript sent emo;;
  let visuals := mapEmotionToVisuals (Some emo) (Z.of_nat nextIndex - 1) in
  let idx := 0 in
  invoke (TextToSpeech elevenLabsApiKey voiceID (message_mp3 idx) mia_text_)
         (textToSpeech a idx);;
  lipSyncMessage a idx;;
  audio_ <- await (audioFile a idx);;
  lipsync_ <- await (lipsyncFile a idx);;
  modify (set_historial_json
            (Stored (obj_set historialActual nextKey
                       {| user_responde := transcript;
                          sentimiento := sent;
                          mia_emocion := emo;
                          mia_text := mia_text_ |})));;
  maybeUpdateSummary a (t_summary rq);;
  modify (set_lastActivity (t_done rq));;
  ret (RespReply transcript sent emo
         {| text := mia_text_;
            audio := Some audio_;
            lipsync := Some lipsync_;
            facialExpression := v_facialExpression visuals;
            animation := v_animation visuals |}).

(** CASO 2, no message: the recorded greeting. *)
Definition chat_greeting (rq : Request) : M Response :=
  modify (set_lastActivity (t_done rq));;
  s <- get;;
  files <- await (match intro_files s with
                  | Some f => Ok f
                  | None => Fail enoent
                  end);;
  ret (RespMessages
         [ {| text := "Hey dear... How was your day?";
              audio := Some (fst files);
              lipsync := Some (snd files);
              facialExpression := "smile";
              animation := "Talking_1" |} ]).

Definition chat_missing_keys (rq : Request) : M Response :=
  modify (set_lastActivity (t_done rq));;
  ret (RespMessages
         [ {| text := "Please my dear, don't forget to add your API keys!";
              audio := None;
              lipsync := None;
              facialExpression := "angry";
              animation := "Angry" |} ]).

(** The loop over the messages of the chat completion. *)
Fixpoint legacy_messages (a : Answers) (i : nat) (messages : list Message)
  : M (list Message) :=
  match messages with
  | [] => ret []
  | m :: rest =>
      invoke (TextToSpeech elevenLabsApiKey voiceID (message_mp3 i) (text m))
             (textToSpeech a i);;
      lipSyncMessage a i;;
      audio_ <- await (audioFile a i);;
      lipsync_ <- await (lipsyncFile a i);;
      rest' <- legacy_messages a (S i) rest;;
      ret ({| text := text m;
              audio := Some audio_;
              lipsync := Some lipsync_;
              facialExpression := facialExpression m;
              animation := animation m |} :: rest')
  end.

(** The text chat kept from the original program. *)
Definition chat_text (rq : Request) (userMessage : string) : M Response :=
  let a := answers rq in
  messages <- invoke (ChatCompletion userMessage) (completion a);;
  messages' <- legacy_messages a 0 messages;;
  modify (set_lastActivity (t_done rq));;
  ret (RespMessages messages').

Definition is_audio (userMessage : option string) : bool :=
  match userMessage with
  | Some m => startsWith m "data:audio"
  | None => false
  end.

(** The body of [/chat] below the expiry test. *)
Definition chat_routes (rq : Request) : M Response :=
  let userMessage := message rq in
  if is_audio userMessage then
    chat_audio rq (or_default userMessage "")
  else if falsy userMessage then chat_greeting rq
  else if falsy elevenLabsApiKey || String.eqb openai_apiKey "-" then
    chat_missing_keys rq
  else chat_text rq (or_default userMessage "").

(** The handler of [POST /chat]. *)
Definition chat (rq : Request) : M Response :=
  try_catch
    (ensureDirs;;
     s <- get;;
     if sessionExpired s
        || (INACTIVITY_MS <=? t_gate rq - lastActivity s)%Z
     then
       resetSession (t_done rq);;
       ret RespExpired
     else chat_routes rq)
    (fun err => ret (RespError err)).

(** A [POST /chat] through the middleware. *)
Definition post_chat (rq : Request) : M Response :=
  touch_activity (t_arrival rq);;
  chat rq.

(** A [POST /reset] through the middleware; [true] is
    [{ ok: true, reset: true }]. *)
Definition post_reset (arrival done : Z) : M bool :=
  touch_activity arrival;;
  try_catch (resetSession done;; ret true) (fun _ => ret false).

(** Serving one [POST /chat] from session [s]: the session afterwards,
    the collaborators invoked, in order, and the response. *)
Definition serve (s : Session) (rq : Request)
  : Session * list Call * Response :=
  match post_chat rq {| session := s; calls := [] |} with
  | (w, Ok r) => (session w, calls w, r)
  | (w, Fail e) => (session w, calls w, RespError e)
  end.

(** Serving one request after the other. *)
Fixpoint serve_all (s : Session) (rqs : list Request)
  : Session * list Response :=
  match rqs with
  | [] => (s, [])
  | rq :: rest =>
      let '(s', _, r) := serve s rq in
      let '(s'', rs) := serve_all s' rest in
      (s'', r :: rs)
  end.

End Backend.

(** Running the watchdog callback on a session. *)
Definition run_watchdog (now now' : Z) (s : Session) : Session :=
  session (fst (watchdog now now' {| session := s; calls := [] |})).

(** ** Auxiliary notions used in the statements *)

Fixpoint digits_only (s : string) : bool :=
  match s with
  | EmptyString => true
  | String c r =>
      match digit_val c with
      | Some _ => digits_only r
      | None => false
      end
  end.

(** The Turn Collection holding the turns [ts], in creation order, under
    the keys [conversacion_1], [conversacion_2], ... *)
Definition collection (ts : list Turn) : Historial :=
  combine (map turn_key (seq 1 (length ts))) ts.

(** The keys of a collection are exactly those of turns 1 to its size. *)
Definition dense (h : Historial) : Prop :=
  keys h = map turn_key (seq 1 (length h)).

(** The Turn Collection a session holds. *)
Definition turns_of (s : Session) : Historial :=
  readJsonSafe (historial_json s) [].

(** The request gets past the expiry test of [/chat]: the flag is clear
    and less than the threshold elapses between the middleware and the
    test. *)
Definition live (s : Session) (rq : Request) : Prop :=
  sessionExpired s = false /\ (t_gate rq - t_arrival rq < INACTIVITY_MS)%Z.

(** The labels the pipeline works with: the classifier's answer in lower
    case, or the default the [catch] leaves in place. *)
Definition sent_label (a : Answers) : string :=
  match sentiment a with
  | Ok j => toLowerCase (or_default j "")
  | Fail _ => "neutral"
  end.

Definition emo_label (a : Answers) : string :=
  match mia_predict a with
  | Ok j => toLowerCase (or_default j "")
  | Fail _ => "default"
  end.

(** The session [resetSession] leaves behind. *)
Definition wiped (now : Z) : Session :=
  {| historial_json := Stored [];
     resumen_json := Stored None;
     intro_files := None;
     lastActivity := now;
     sessionExpired := false |}.

(** The observable result of running a handler from a session. *)
Definition finish (x : World * Outcome Response)
  : Session * list Call * Response :=
  match x with
  | (w, Ok r) => (session w, calls w, r)
  | (w, Fail e) => (session w, calls w, RespError e)
  end.

(** The world a request finds behind the middleware. *)
Definition arrived (s : Session) (rq : Request) : World :=
  {| session := set_lastActivity (t_arrival rq) s; calls := [] |}.

(** The invocations of the audio branch up to the generation of the
    reply, from session [s]. *)
Definition front_calls (rq : Request) (s : Session)
    (buffer mime ext : string) (tr : option string) : list Call :=
  let a := answers rq in
  let h := turns_of s in
  [ Transcription buffer ("audio." ++ ext) mime;
    Sentiment (or_default tr "");
    MiaPredict (or_default tr "") (sent_label a);
    ReplyGeneration
      (summary_text (readJsonSafe (resumen_json s) None))
      (formatRecentTurns h) (or_default tr "") (sent_label a) (emo_label a)
      (length (keys h)) ].

(** The turn the audio branch stores. *)
Definition new_turn (rq : Request) (tr rp : option string) : Turn :=
  {| user_responde := or_default tr "";
     sentimiento := sent_label (answers rq);
     mia_emocion := emo_label (answers rq);
     mia_text := trim (or_default rp "") |}.

(** The message it answers with. *)
Definition reply_message (rq : Request) (s : Session) (rp : option string)
    (au ls : string) : Message :=
  let visuals :=
    mapEmotionToVisuals (Some (emo_label (answers rq)))
      (Z.of_nat (next_index (turns_of s)) - 1) in
  {| text := trim (or_default rp "");
     audio := Some au;
     lipsync := Some ls;
     facialExpression := v_facialExpression visuals;
     animation := v_animation visuals |}.

Definition speech_call (env : Env) (rp : option string) : Call :=
  TextToSpeech (elevenLabsApiKey env) voiceID (message_mp3 0)
    (trim (or_default rp "")).

(** The session after the audio branch stored its turn. *)
Definition persisted (rq : Request) (s : Session) (tr rp : option string)
  : Session :=
  let h := turns_of s in
  set_historial_json
    (Stored (obj_set h (turn_key (next_index h)) (new_turn rq tr rp))) s.

(** A response with [ok: true] that carries a reply. *)
Definition is_reply (r : Response) : bool :=
  match r with
  | RespReply _ _ _ _ => true
  | _ => false
  end.

(** Every stage of the audio branch up to the storing of the turn
    succeeds: the data URL parses to [(buffer, mime, ext)], Whisper answers
    [tr], the model answers [rp], synthesis and lip sync run and their
    artefacts read back as [au] and [ls]. *)
Definition stages_ok (rq : Request) (m buffer mime ext : string)
    (tr rp : option string) (au ls : string) : Prop :=
  let a := answers rq in
  message rq = Some m
  /\ startsWith m "data:audio" = true
  /\ parseDataUrl m = Ok (buffer, mime, ext)
  /\ whisper a = Ok tr
  /\ reply a = Ok rp
  /\ textToSpeech a 0 = Ok tt
  /\ lipSync a 0 = Ok tt
  /\ audioFile a 0 = Ok au
  /\ lipsyncFile a 0 = Ok ls.

(** The invocations of the audio branch before the summarizer. *)
Definition pipeline_calls (env : Env) (rq : Request) (s : Session)
    (buffer mime ext : string) (tr rp : option string) : list Call :=
  (front_calls rq s buffer mime ext tr ++ [speech_call env rp; LipSync 0])%list.






(** The name of the [k]-th talking animation. *)
Definition talking (k : nat) : string := "Talking_" ++ of_nat k.

(** The recorded greeting and the reminder about the API keys. *)
Definition greeting_message (au ls : string) : Message :=
  {| text := "Hey dear... How was your day?";
     audio := Some au;
     lipsync := Some ls;
     facialExpression := "smile";
     animation := "Talking_1" |}.

Definition missing_keys_message : Message :=
  {| text := "Please my dear, don't forget to add your API keys!";
     audio := None;
     lipsync := None;
     facialExpression := "angry";
     animation := "Angry" |}.

(** The keys are there: neither is missing. *)
Definition keys_present (env : Env) : Prop :=
  falsy (ELEVEN_LABS_API_KEY env) = false
  /\ String.eqb (openai_apiKey env) "-" = false.

(** Stable insertion sort of turn numbers, to compare [sort_keys] with. *)
Fixpoint insert_number (k : nat) (l : list nat) : list nat :=
  match l with
  | [] => [k]
  | x :: r => if x <? k then x :: insert_number k r else k :: l
  end.

(** Turn numbers that [parseInt] returns exactly. *)
Definition safe_numbers (l : list nat) : Prop :=
  Forall (fun n => (Z.of_nat n <= MAX_SAFE_INTEGER)%Z) l.

Fixpoint sort_numbers (l : list nat) : list nat :=
  match l with
  | [] => []
  | k :: r => insert_number k (sort_numbers r)
  end.

Definition is_summarization (c : Call) : bool :=
  match c with
  | Summarization _ _ => true
  | _ => false
  end.

(** ** Concrete sessions and requests *)

Module Sample.

Definition with_keys : Env :=
  {| OPENAI_API_KEY := Some "sk-test"; ELEVEN_LABS_API_KEY := Some "el-test" |}.

Definition without_keys : Env :=
  {| OPENAI_API_KEY := None; ELEVEN_LABS_API_KEY := None |}.

(** Every collaborator answers. *)
Definition answering (transcript : string) : Answers :=
  {| whisper := Ok (Some transcript);
     sentiment := Ok (Some "Negativo");
     mia_predict := Ok (Some "Tristeza");
     reply := Ok (Some " Te escucho. ");
     summary := Ok (Some " Resumen breve. ");
     completion :=
       Ok [ {| text := "Hi"; audio := None; lipsync := None;
               facialExpression := "smile"; animation := "Talking_0" |} ];
     textToSpeech := fun _ => Ok tt;
     lipSync := fun _ => Ok tt;
     audioFile := fun _ => Ok "QUJD";
     lipsyncFile := fun _ => Ok "{}" |}.

Definition set_whisper (o : Outcome (option string)) (a : Answers) : Answers :=
  {| whisper := o; sentiment := sentiment a; mia_predict := mia_predict a;
     reply := reply a; summary := summary a; completion := completion a;
     textToSpeech := textToSpeech a; lipSync := lipSync a;
     audioFile := audioFile a; lipsyncFile := lipsyncFile a |}.

Definition set_classifiers (o1 o2 : Outcome (option string)) (a : Answers)
  : Answers :=
  {| whisper := whisper a; sentiment := o1; mia_predict := o2;
     reply := reply a; summary := summary a; completion := completion a;
     textToSpeech := textToSpeech a; lipSync := lipSync a;
     audioFile := audioFile a; lipsyncFile := lipsyncFile a |}.

Definition set_reply (o : Outcome (option string)) (a : Answers) : Answers :=
  {| whisper := whisper a; sentiment := sentiment a;
     mia_predict := mia_predict a;
     reply := o; summary := summary a; completion := completion a;
     textToSpeech := textToSpeech a; lipSync := lipSync a;
     audioFile := audioFile a; lipsyncFile := lipsyncFile a |}.

Definition set_summary (o : Outcome (option string)) (a : Answers) : Answers :=
  {| whisper := whisper a; sentiment := sentiment a;
     mia_predict := mia_predict a;
     reply := reply a; summary := o; completion := completion a;
     textToSpeech := textToSpeech a; lipSync := lipSync a;
     audioFile := audioFile a; lipsyncFile := lipsyncFile a |}.

Definition voice_note : string := "data:audio/webm;base64,AAAA".

(** A request served within a few milliseconds of its arrival at [t]. *)
Definition request (msg : option string) (a : Answers) (t : Z) : Request :=
  {| message := msg; answers := a;
     t_arrival := t; t_gate := t + 1; t_done := t + 2; t_summary := t + 3 |}.

Definition intro : option (string * string) := Some ("UklGRg==", "{}").

(** A fresh session with the intro files in place. *)
Definition fresh : Session :=
  {| historial_json := Stored [];
     resumen_json := Stored None;
     intro_files := intro;
     lastActivity := 0;
     sessionExpired := false |}.

Definition a_turn : Turn :=
  {| user_responde := "hola"; sentimiento := "neutral";
     mia_emocion := "default"; mia_text := "Hola." |}.

(** One stored turn and a summary. *)
Definition one_turn : Session :=
  {| historial_json := Stored (collection [a_turn]);
     resumen_json :=
       Stored (Some {| resumen := "Saludo."; updatedAt := 0;
                       total_conversaciones := 1 |});
     intro_files := intro;
     lastActivity := 0;
     sessionExpired := false |}.

(** Ten turns whose texts name their index. *)
Definition ten_turns : list Turn :=
  map (fun i => {| user_responde := "pregunta " ++ of_nat i;
                   sentimiento := "neutral";
                   mia_emocion := "default";
                   mia_text := "respuesta " ++ of_nat i |})
      (seq 1 10).

(** The session with one turn while the expired flag is raised. *)
Definition one_turn_expired : Session := set_sessionExpired true one_turn.

Fixpoint repeat_unit (c : ascii) (n : nat) : string :=
  match n with
  | 0 => EmptyString
  | S n' => String c (repeat_unit c n')
  end.

(** A transcript long enough to cross the summary threshold alone. *)
Definition long_transcript : string := repeat_unit "a" (101 * 100).

(** A voice note with that transcript, served while the summarizer is
    down. *)
Definition long_note_summarizer_down : Request :=
  request (Some voice_note)
    (set_summary (Fail "summary unavailable") (answering long_transcript))
    1000.

(** Three voice notes in a row; the classifiers are down for the
    second. *)
Definition three_notes : list Request :=
  [ request (Some voice_note) (answering "hola") 1000;
    request (Some voice_note)
      (set_classifiers (Fail "sentiment 500") (Fail "mia_predict 500")
         (answering "tengo un mal dia")) 2000;
    request (Some voice_note) (answering "gracias") 3000 ].

(** A voice note served while both classifiers are down. *)
Definition note_classifiers_down : Request :=
  request (Some voice_note)
    (set_classifiers (Fail "sentiment 500") (Fail "mia_predict 500")
       (answering "tengo un mal dia")) 2000.

(** A session whose single stored turn is already over the threshold. *)
Definition over_threshold : Session :=
  {| historial_json :=
       Stored (collection
                 [ {| user_responde := long_transcript;
                      sentimiento := "neutral"; mia_emocion := "default";
                      mia_text := "Te escucho." |} ]);
     resumen_json := Stored None;
     intro_files := intro;
     lastActivity := 0;
     sessionExpired := false |}.

(** The session with one turn after both documents became unreadable,
    and the fresh session it reads like. *)
Definition documents_lost : Session :=
  {| historial_json := Unreadable;
     resumen_json := Unreadable;
     intro_files := intro;
     lastActivity := 0;
     sessionExpired := false |}.

(** The same while the summarizer answers. *)
Definition long_note : Request :=
  request (Some voice_note) (answering long_transcript) 1000.

End Sample.

(** ** The greeting of the second program

    [index.js] holds a second copy of the program (from its line 512 on)
    without the inactivity logic, whose [/chat] synthesizes the greeting
    on the fly instead of reading the intro files.  Its helpers
    [readJsonSafe], [lipSyncMessage] and [mapEmotionToVisuals] compute
    what the ones above compute. *)

Module Variant.

(** The greeting, with its accented letters and the inverted question
    mark as code units. *)
Definition greeting_text : string :=
  "Estoy aqu" ++ unit_of 237 ++ ". " ++ unit_of 191 ++ "Qu" ++ unit_of 233
    ++ " te gustar" ++ unit_of 237 ++ "a contarme?".

(** The branch of [/chat] for a request without message; the value is the
    [messages] array sent with [ok: true]. *)
Definition chat_greeting (env : Env) (rq : Request) : M (list Message) :=
  let a := answers rq in
  let mia_text_ := greeting_text in
  s <- get;;
  let historialActual := readJsonSafe (historial_json s) [] in
  let nextIndex := next_index historialActual in
  let visuals := mapEmotionToVisuals (Some "default") (Z.of_nat nextIndex - 1) in
  try_catch
    (let idx := 0 in
     invoke (TextToSpeech (elevenLabsApiKey env) voiceID (message_mp3 idx)
               mia_text_)
            (textToSpeech a idx);;
     lipSyncMessage a idx;;
     audio_ <- await (audioFile a idx);;
     lipsync_ <- await (lipsyncFile a idx);;
     ret [ {| text := mia_text_;
              audio := Some audio_;
              lipsync := Some lipsync_;
              facialExpression := v_facialExpression visuals;
              animation := v_animation visuals |} ])
    (fun _ =>
       ret [ {| text := mia_text_;
                audio := None;
                lipsync := None;
                facialExpression := v_facialExpression visuals;
                animation := v_animation visuals |} ]).

(** Synthesis, lip sync and the two reads all succeed for message 0. *)
Definition voice_ready (a : Answers) : bool :=
  match textToSpeech a 0, lipSync a 0, audioFile a 0, lipsyncFile a 0 with
  | Ok _, Ok _, Ok _, Ok _ => true
  | _, _, _, _ => false
  end.

End Variant.

(** A string that is empty or starts with something else than white
    space. *)
Definition starts_clean (s : string) : Prop :=
  match s with
  | EmptyString => True
  | String c _ => is_space c = false
  end.

(** ** Sessions that read the same *)

(** Two sessions that differ at most in how a document is unreadable or
    empty: what [readJsonSafe] returns for each document is the same, and
    so are the intro files and the two globals. *)
Definition same_reading (s1 s2 : Session) : Prop :=
  turns_of s1 = turns_of s2
  /\ readJsonSafe (resumen_json s1) None = readJsonSafe (resumen_json s2) None
  /\ intro_files s1 = intro_files s2
  /\ lastActivity s1 = lastActivity s2
  /\ sessionExpired s1 = sessionExpired s2.

Definition same_world (w1 w2 : World) : Prop :=
  calls w1 = calls w2 /\ same_reading (session w1) (session w2).

Definition same_result {A} (x1 x2 : World * Outcome A) : Prop :=
  snd x1 = snd x2 /\ same_world (fst x1) (fst x2).

(** ** Sequences of events *)

(** What happens to the process, one thing at a time: a [POST /chat], a
    [POST /reset] (with the clock readings of the middleware and of
    [resetSession]) or a run of the watchdog callback. *)
Inductive Event : Type :=
| Chat (rq : Request)
| Reset (arrival done : Z)
| Tick (now now' : Z).

Definition step (env : Env) (s : Session) (ev : Event) : Session :=
  match ev with
  | Chat rq => fst (fst (serve env s rq))
  | Reset arrival done =>
      session (fst (post_reset arrival done {| session := s; calls := [] |}))
  | Tick now now' => run_watchdog now now' s
  end.

Definition run (env : Env) (s : Session) (evs : list Event) : Session :=
  fold_left (step env) evs s.

(** The Summary Record, when there is one, counts no more turns than the
    Turn Collection holds. *)
Definition summary_bounded (s : Session) : Prop :=
  match readJsonSafe (resumen_json s) None with
  | Some r => total_conversaciones r <= length (turns_of s)
  | None => True
  end.

(** The names a reply may carry. *)
Definition talking_names : list string :=
  ["Talking_0"; "Talking_1"; "Talking_2"].

Definition expression_names : list string :=
  ["smile"; "sad"; "angry"; "surprised"; "default"].

(** No character of [s] is [c]. *)
Fixpoint lacks (c : ascii) (s : string) : bool :=
  match s with
  | EmptyString => true
  | String d r => negb (Ascii.eqb d c) && lacks c r
  end.

(** The invocations of the text chat for the messages [i], [i+1], ... *)
Fixpoint speech_calls (env : Env) (i : nat) (ms : list Message) : list Call :=
  match ms with
  | [] => []
  | m :: rest =>
      TextToSpeech (elevenLabsApiKey env) voiceID (message_mp3 i) (text m)
      :: LipSync i :: speech_calls env (S i) rest
  end.

(** The messages of the text chat with their audio and lip sync read
    back, when every read succeeds. *)
Fixpoint voiced (a : Answers) (i : nat) (ms : list Message)
  : option (list Message) :=
  match ms with
  | [] => Some []
  | m :: rest =>
      match audioFile a i, lipsyncFile a i, voiced a (S i) rest with
      | Ok au, Ok ls, Some rest' =>
          Some ({| text := text m; audio := Some au; lipsync := Some ls;
                   facialExpression := facialExpression m;
                   animation := animation m |} :: rest')
      | _, _, _ => None
      end
  end.

(** Synthesis and lip sync succeed for the messages [i .. i+n-1]. *)
Definition speech_ok (a : Answers) (i n : nat) : Prop :=
  forall k, k < n ->
    textToSpeech a (i + k) = Ok tt /\ lipSync a (i + k) = Ok tt.

(** A day in the life of the process: a voice note, a watchdog run ten
    minutes later, a greeting, a text message, a voice note while the
    summarizer is down, a manual reset and one more voice note. *)
Definition sample_day : list Event :=
  [ Chat (Sample.request (Some Sample.voice_note) (Sample.answering "hola")
            1000);
    Tick 601000 601005;
    Chat (Sample.request None (Sample.answering "") 700000);
    Chat (Sample.request (Some "hola") (Sample.answering "") 710000);
    Chat (Sample.request (Some Sample.voice_note)
            (Sample.set_summary (Fail "summary unavailable")
               (Sample.answering "sigo aqui")) 720000);
    Reset 730000 730001;
    Chat (Sample.request (Some Sample.voice_note)
            (Sample.answering "de nuevo") 740000) ].

(** * Properties *)

(** ** Decimal rendering and parsing *)

Lemma digits_only_uint (d : uint) :
  digits_only (NilEmpty.string_of_uint d) = true.
Proof. induction d; simpl; auto. Qed.

Lemma split_digits (s : string) :
  digits_only s = true -> split "_" s = [s].
Proof.
  induction s as [|c r IH]; simpl; [reflexivity|].
  destruct (digit_val c) eqn:Hc; [|discriminate].
  intros Hr. destruct (Ascii.eqb_spec c "_") as [->|_].
  - discriminate Hc.
  - rewrite (IH Hr). reflexivity.
Qed.

Lemma parse_digits_step (c : ascii) (r : string) (a d : Z) :
  digit_val c = Some d ->
  parse_digits (String c r) (Some a) = parse_digits r (Some (10 * a + d)%Z).
Proof. intros H. cbn [parse_digits]. rewrite H. reflexivity. Qed.

Lemma parse_digits_start (c : ascii) (r : string) (d : Z) :
  digit_val c = Some d ->
  parse_digits (String c r) None = parse_digits r (Some d).
Proof. intros H. cbn [parse_digits]. rewrite H. reflexivity. Qed.

Lemma parse_digits_uint (d : uint) (acc : nat) :
  parse_digits (NilEmpty.string_of_uint d) (Some (Z.of_nat acc))
  = Some (Z.of_nat (Nat.of_uint_acc d acc)).
Proof.
  revert acc.
  induction d; intros acc; cbn [NilEmpty.string_of_uint Nat.of_uint_acc];
    [reflexivity | ..];
    (erewrite parse_digits_step by reflexivity);
    rewrite <- IHd; do 2 f_equal; rewrite Nat.tail_mul_spec;
    match goal with
    | |- context [Z.of_nat (nat_of_ascii ?c - 48)] =>
        let v := eval vm_compute in (Z.of_nat (nat_of_ascii c - 48)) in
        change (Z.of_nat (nat_of_ascii c - 48)) with v
    end; lia.
Qed.

Lemma to_uint_nonnil (n : nat) : Nat.to_uint n <> Nil.
Proof.
  intros H. pose proof (Unsigned.of_to n) as E. rewrite H in E.
  simpl in E. subst n. discriminate H.
Qed.

Lemma parseInt_of_nat (n : nat) : parseInt (of_nat n) = Some (Z.of_nat n).
Proof.
  unfold of_nat. pose proof (Unsigned.of_to n) as E.
  pose proof (to_uint_nonnil n) as Hn.
  destruct (Nat.to_uint n) as [|d|d|d|d|d|d|d|d|d|d]; [congruence | ..];
    unfold parseInt; cbn [NilEmpty.string_of_uint trimStart];
    match goal with
    | |- context [is_space ?c] => change (is_space c) with false
    end;
    cbv iota;
    match goal with
    | |- context [Ascii.eqb ?c "-"] => change (Ascii.eqb c "-") with false
    end;
    match goal with
    | |- context [Ascii.eqb ?c "+"] => change (Ascii.eqb c "+") with false
    end;
    cbv iota;
    (erewrite parse_digits_start by reflexivity);
    match goal with
    | |- parse_digits _ (Some ?z) = _ =>
        change z with (Z.of_nat (Z.to_nat z))
    end;
    rewrite parse_digits_uint; rewrite <- E; reflexivity.
Qed.

Lemma of_nat_inj (n m : nat) : of_nat n = of_nat m -> n = m.
Proof.
  unfold of_nat. intros H. apply Unsigned.to_uint_inj.
  apply (f_equal NilEmpty.uint_of_string) in H.
  rewrite !NilEmpty.usu in H. congruence.
Qed.

Lemma of_nat_nonempty (n : nat) : of_nat n <> EmptyString.
Proof.
  unfold of_nat. pose proof (to_uint_nonnil n) as Hn.
  destruct (Nat.to_uint n); [congruence | ..]; discriminate.
Qed.

(** ** Turn keys *)

Lemma turn_key_inj (n m : nat) : turn_key n = turn_key m -> n = m.
Proof.
  unfold turn_key. intros H. apply of_nat_inj.
  cbn [append] in H. congruence.
Qed.

Lemma is_turn_key_turn_key (n : nat) : is_turn_key (turn_key n) = true.
Proof.
  unfold is_turn_key, startsWith, turn_key. cbn [append prefix].
  repeat (rewrite Ascii.eqb_refl). destruct (of_nat n); reflexivity.
Qed.

Lemma key_number_turn_key (n : nat) :
  key_number (turn_key n) = Some (Z.of_nat n).
Proof.
  unfold key_number, turn_key. cbn [append split].
  repeat match goal with
         | |- context [Ascii.eqb ?c "_"] =>
             let b := eval vm_compute in (Ascii.eqb c "_") in
             change (Ascii.eqb c "_") with b; cbv iota
         end.
  rewrite split_digits by apply digits_only_uint.
  cbn [nth_error]. unfold or_default.
  pose proof (of_nat_nonempty n) as Hn.
  destruct (of_nat n) eqn:E; [congruence|].
  rewrite <- E. apply parseInt_of_nat.
Qed.

Lemma comes_after_turn_key (i j : nat) :
  comes_after (turn_key i) (turn_key j) = (j <? i).
Proof.
  unfold comes_after, compare_keys. rewrite !key_number_turn_key.
  destruct (Nat.ltb_spec j i); [apply Z.ltb_lt | apply Z.ltb_ge]; lia.
Qed.

Lemma filter_turn_keys (l : list nat) :
  filter is_turn_key (map turn_key l) = map turn_key l.
Proof.
  induction l as [|n l IH]; cbn [map filter]; [reflexivity|].
  rewrite is_turn_key_turn_key, IH. reflexivity.
Qed.


(** On turn keys in any order the comparator sorts by turn number. *)
Lemma sort_keys_by_number (l : list nat) :
  sort_keys (map turn_key l) = map turn_key (sort_numbers l).
Proof.
  induction l as [|k l IH]; [reflexivity|].
  cbn [map sort_keys sort_numbers]. rewrite IH.
  generalize (sort_numbers l) as sorted. intros sorted.
  induction sorted as [|x r IHr]; [reflexivity|].
  cbn [map sort_insert insert_number]. rewrite comes_after_turn_key.
  destruct (x <? k); [now rewrite IHr | reflexivity].
Qed.

Example shuffled_keys_sorted :
  recent_keys
    (map (fun i => (turn_key i, Sample.a_turn)) [3; 10; 1; 7; 2; 9; 4; 8; 6; 5])
  = map turn_key [5; 6; 7; 8; 9; 10].
Proof. vm_compute. reflexivity. Qed.


(** ** Objects *)

Lemma keys_app {A} (o1 o2 : Obj A) : keys (o1 ++ o2)%list = (keys o1 ++ keys o2)%list.
Proof. apply map_app. Qed.

Lemma obj_set_fresh {A} (o : Obj A) (k : string) (v : A) :
  ~ In k (keys o) -> obj_set o k v = (o ++ [(k, v)])%list.
Proof.
  induction o as [|[k' v'] o IH]; cbn [obj_set keys map fst In Datatypes.app];
    [reflexivity|].
  intros H. destruct (String.eqb_spec k' k) as [->|_].
  - exfalso. apply H. now left.
  - rewrite IH; [reflexivity|]. intros Hin. apply H. now right.
Qed.

Lemma keys_combine {A} (ks : list string) (vs : list A) :
  length ks = length vs -> keys (combine ks vs) = ks.
Proof.
  revert vs. induction ks as [|k ks IH]; intros [|v vs] H;
    try discriminate H; [reflexivity|].
  cbn [combine keys map fst]. f_equal. apply IH. now injection H.
Qed.

Lemma keys_collection (ts : list Turn) :
  keys (collection ts) = map turn_key (seq 1 (length ts)).
Proof.
  unfold collection. apply keys_combine.
  now rewrite length_map, length_seq.
Qed.

Lemma length_collection (ts : list Turn) : length (collection ts) = length ts.
Proof.
  unfold collection.
  rewrite length_combine, length_map, length_seq. apply Nat.min_id.
Qed.

Lemma dense_collection (ts : list Turn) : dense (collection ts).
Proof.
  unfold dense. now rewrite keys_collection, length_collection.
Qed.

Lemma length_keys {A} (o : Obj A) : length (keys o) = length o.
Proof. apply length_map. Qed.

Lemma next_index_dense (h : Historial) :
  dense h -> next_index h = length h + 1.
Proof.
  unfold dense, next_index. intros ->.
  now rewrite filter_turn_keys, length_map, length_seq.
Qed.

Lemma dense_fresh (h : Historial) :
  dense h -> ~ In (turn_key (length h + 1)) (keys h).
Proof.
  unfold dense. intros -> Hin. apply in_map_iff in Hin.
  destruct Hin as (i & Hi & Hin). apply turn_key_inj in Hi.
  apply in_seq in Hin. lia.
Qed.

(** Appending under the next key keeps the collection dense. *)
Lemma dense_append (h : Historial) (t : Turn) :
  dense h ->
  obj_set h (turn_key (next_index h)) t
  = (h ++ [(turn_key (length h + 1), t)])%list
  /\ dense (obj_set h (turn_key (next_index h)) t).
Proof.
  intros Hd. rewrite (next_index_dense Hd).
  rewrite obj_set_fresh by (apply dense_fresh; exact Hd).
  split; [reflexivity|].
  unfold dense in *. rewrite keys_app, Hd, length_app. cbn [length keys map fst].
  rewrite Nat.add_1_r, seq_S, map_app. cbn [map]. reflexivity.
Qed.

(** ** Running the handlers *)

Ltac run_monad :=
  cbv [bind ret throw try_catch get modify await invoke ensureDirs
       clearAudios clearHistorial resetSession touch_activity];
  cbv beta iota zeta; cbn [session calls].

Ltac norm_calls := repeat rewrite <- app_assoc; cbn [Datatypes.app].

Lemma resetSession_run (now : Z) (w : World) :
  resetSession now w = ({| session := wiped now; calls := calls w |}, Ok tt).
Proof. reflexivity. Qed.

(** An expired session short-circuits [/chat]: the wipe, the
    session-expired answer and no collaborator. *)
Lemma serve_expired (env : Env) (s : Session) (rq : Request) :
  sessionExpired s = true ->
  serve env s rq = (wiped (t_done rq), [], RespExpired).
Proof.
  intros H. unfold serve, post_chat, chat. run_monad.
  rewrite H. cbn [negb]. cbv beta iota. cbn [session calls].
  unfold set_lastActivity, set_sessionExpired; cbn [sessionExpired].
  rewrite H. reflexivity.
Qed.

(** So does a session whose idle time at the test reaches the threshold. *)
Lemma serve_stale (env : Env) (s : Session) (rq : Request) :
  sessionExpired s = false ->
  (INACTIVITY_MS <= t_gate rq - t_arrival rq)%Z ->
  serve env s rq = (wiped (t_done rq), [], RespExpired).
Proof.
  intros H Hg. unfold serve, post_chat, chat. run_monad.
  rewrite H. cbn [negb]. cbv beta iota. cbn [session calls].
  unfold set_lastActivity; cbn [sessionExpired lastActivity].
  rewrite H. apply Z.leb_le in Hg. rewrite Hg. reflexivity.
Qed.

(** A live request reaches the routes with the activity stamp refreshed. *)
Lemma serve_live (env : Env) (s : Session) (rq : Request) :
  live s rq ->
  serve env s rq = finish (chat_routes env rq (arrived s rq)).
Proof.
  intros [H Hg]. unfold serve, post_chat, chat, arrived, finish. run_monad.
  rewrite H. cbn [negb]. cbv beta iota. cbn [session calls].
  unfold set_lastActivity at 1 2; cbn [sessionExpired lastActivity].
  rewrite H. apply Z.ltb_lt in Hg. rewrite Z.ltb_antisym in Hg.
  apply negb_true_iff in Hg. rewrite Hg. cbn [orb].
  destruct (chat_routes env rq _) as [w [r|e]]; reflexivity.
Qed.

(** ** The rolling summarizer *)

Lemma maybeUpdateSummary_below (a : Answers) (now : Z) (w : World) :
  (serialized_length (turns_of (session w)) <= MAX_CONTEXT_CHARS)%N ->
  maybeUpdateSummary a now w = (w, Ok tt).
Proof.
  intros H. unfold maybeUpdateSummary, turns_of in *. run_monad.
  apply N.leb_le in H. rewrite H. reflexivity.
Qed.

Lemma maybeUpdateSummary_above (a : Answers) (now : Z) (w : World) :
  (MAX_CONTEXT_CHARS < serialized_length (turns_of (session w)))%N ->
  maybeUpdateSummary a now w
  = let h := turns_of (session w) in
    let prev := summary_text (readJsonSafe (resumen_json (session w)) None) in
    let cs := (calls w ++ [Summarization prev h])%list in
    match summary a with
    | Ok out =>
        ({| session :=
              set_resumen_json
                (Stored (Some {| resumen := trim (or_default out "");
                                 updatedAt := now;
                                 total_conversaciones := length (keys h) |}))
                (session w);
            calls := cs |}, Ok tt)
    | Fail e => ({| session := session w; calls := cs |}, Fail e)
    end.
Proof.
  intros H. unfold maybeUpdateSummary, turns_of in *. run_monad.
  apply N.leb_gt in H. rewrite H.
  destruct (summary a); reflexivity.
Qed.

(** ** The audio branch, stage by stage *)

Section AudioBranch.

Variable env : Env.
Variable rq : Request.
Variable w : World.
Variables userMessage buffer mime ext : string.

Hypothesis parsed : parseDataUrl userMessage = Ok (buffer, mime, ext).

Lemma chat_audio_transcription_fails (e : string) :
  whisper (answers rq) = Fail e ->
  chat_audio env rq userMessage w
  = ({| session := session w;
        calls := (calls w
                  ++ [Transcription buffer ("audio." ++ ext) mime])%list |},
     Fail e).
Proof.
  intros Hw. unfold chat_audio, transcribeBufferWithWhisper. run_monad.
  rewrite parsed. cbv beta iota. cbn [session calls].
  rewrite Hw. reflexivity.
Qed.

(** With a transcript, the branch reaches the generation call whatever
    the two classifiers answer. *)
Lemma chat_audio_run (tr : option string) :
  whisper (answers rq) = Ok tr ->
  chat_audio env rq userMessage w
  = let a := answers rq in
    let s := session w in
    let cs1 := (calls w ++ front_calls rq s buffer mime ext tr)%list in
    match reply a with
    | Fail e => ({| session := s; calls := cs1 |}, Fail e)
    | Ok rp =>
        let cs2 := (cs1 ++ [speech_call env rp])%list in
        match textToSpeech a 0 with
        | Fail e => ({| session := s; calls := cs2 |}, Fail e)
        | Ok _ =>
            let w3 := {| session := s;
                         calls := (cs2 ++ [LipSync 0])%list |} in
            match lipSync a 0 with
            | Fail e => (w3, Fail e)
            | Ok _ =>
                match audioFile a 0 with
                | Fail e => (w3, Fail e)
                | Ok au =>
                    match lipsyncFile a 0 with
                    | Fail e => (w3, Fail e)
                    | Ok ls =>
                        let w4 := {| session := persisted rq s tr rp;
                                     calls := calls w3 |} in
                        match maybeUpdateSummary a (t_summary rq) w4 with
                        | (w5, Fail e) => (w5, Fail e)
                        | (w5, Ok _) =>
                            ({| session :=
                                  set_lastActivity (t_done rq) (session w5);
                                calls := calls w5 |},
                             Ok (RespReply (or_default tr "") (sent_label a)
                                   (emo_label a)
                                   (reply_message rq s rp au ls)))
                        end
                    end
                end
            end
        end
    end.
Proof.
  intros Hw.
  unfold chat_audio, transcribeBufferWithWhisper, callLocalSentiment,
    callLocalMiaPredict, generateMiaReply, loadContextForLLM,
    lipSyncMessage, front_calls, speech_call, persisted, reply_message,
    new_turn, sent_label, emo_label, turns_of.
  run_monad. rewrite parsed. cbv beta iota. cbn [session calls].
  rewrite Hw. cbv beta iota. cbn [session calls].
  destruct (sentiment (answers rq)) as [j|e1]; cbv beta iota;
    cbn [session calls];
    (destruct (mia_predict (answers rq)) as [j'|e2]; cbv beta iota;
     cbn [session calls ctx_resumen ctx_recientes ctx_total_conversaciones];
     (destruct (reply (answers rq)) as [rp|e3]; cbv beta iota;
      cbn [session calls];
      [|norm_calls; reflexivity]);
     (destruct (textToSpeech (answers rq) 0) as [[]|e4]; cbv beta iota;
      cbn [session calls];
      [|norm_calls; reflexivity]);
     (destruct (lipSync (answers rq) 0) as [[]|e5]; cbv beta iota;
      cbn [session calls];
      [|norm_calls; reflexivity]);
     (destruct (audioFile (answers rq) 0) as [au|e6]; cbv beta iota;
      cbn [session calls]; [|norm_calls; reflexivity]);
     (destruct (lipsyncFile (answers rq) 0) as [ls|e7]; cbv beta iota;
      cbn [session calls]; [|norm_calls; reflexivity]);
     norm_calls;
     match goal with
     | |- context [maybeUpdateSummary ?x ?y ?z] =>
         destruct (maybeUpdateSummary x y z) as [w5 [[]|e8]]
     end; reflexivity).
Qed.

End AudioBranch.

(** ** Routing *)

Lemma or_default_empty (m : string) : or_default (Some m) "" = m.
Proof. destruct m; reflexivity. Qed.

Lemma route_audio (env : Env) (rq : Request) (m : string) (w : World) :
  message rq = Some m ->
  startsWith m "data:audio" = true ->
  chat_routes env rq w = chat_audio env rq m w.
Proof.
  intros Hm Ha. unfold chat_routes, is_audio.
  rewrite Hm, Ha, or_default_empty. reflexivity.
Qed.

Lemma route_greeting (env : Env) (rq : Request) (w : World) :
  falsy (message rq) = true ->
  chat_routes env rq w = chat_greeting rq w.
Proof.
  intros Hf. unfold chat_routes, is_audio.
  destruct (message rq) as [[|c m]|]; try discriminate Hf; reflexivity.
Qed.

Lemma chat_audio_parse_fails (env : Env) (rq : Request) (m e : string)
    (w : World) :
  parseDataUrl m = Fail e ->
  chat_audio env rq m w = (w, Fail e).
Proof.
  intros H. unfold chat_audio. run_monad. rewrite H. reflexivity.
Qed.

(** ** Essential stages *)

(** A failure at some message of the chat completion aborts the loop. *)
Lemma legacy_messages_fails (env : Env) (a : Answers) (ms : list Message)
    (i k : nat) (w : World) :
  k < length ms ->
  (exists e, textToSpeech a (i + k) = Fail e)
  \/ (exists e, lipSync a (i + k) = Fail e)
  \/ (exists e, audioFile a (i + k) = Fail e)
  \/ (exists e, lipsyncFile a (i + k) = Fail e) ->
  exists w' e,
    legacy_messages env a i ms w = (w', Fail e) /\ session w' = session w.
Proof.
  revert i k w. induction ms as [|m ms IH]; intros i k w Hk Hfail;
    [cbn in Hk; lia|].
  cbn [legacy_messages]. unfold lipSyncMessage. run_monad.
  destruct (textToSpeech a i) as [[]|e1] eqn:H1; [|eauto].
  destruct (lipSync a i) as [[]|e2] eqn:H2; [|eauto].
  destruct (audioFile a i) as [au|e3] eqn:H3; [|eauto].
  destruct (lipsyncFile a i) as [ls|e4] eqn:H4; [|eauto].
  destruct k as [|k].
  - exfalso. rewrite Nat.add_0_r in Hfail.
    destruct Hfail as [[e H]|[[e H]|[[e H]|[e H]]]]; congruence.
  - replace (i + S k) with (S i + k) in Hfail by lia.
    cbn [length] in Hk. apply Nat.succ_lt_mono in Hk.
    match goal with
    | |- context [legacy_messages env a (S i) ms ?w1] =>
        destruct (IH (S i) k w1 Hk Hfail) as (w' & e & E & Hs)
    end.
    rewrite E. exists w', e. split; [reflexivity | exact Hs].
Qed.

(** C4. When an essential stage of a reply request fails, the request
    answers with one error result and both documents are what they were:
    no turn, whole or partial, is stored.  For a recorded utterance the
    essential stages are transcription, reply generation, speech synthesis
    and viseme extraction, reading back their artefacts included; for a
    text message they are the chat completion and, for each of its
    messages, synthesis and viseme extraction. *)
Theorem essential_failure_aborts (env : Env) (s : Session) (rq : Request)
    (m : string) :
  live s rq ->
  message rq = Some m ->
  (startsWith m "data:audio" = true
   /\ ((exists e, whisper (answers rq) = Fail e)
       \/ (exists e, reply (answers rq) = Fail e)
       \/ (exists e, textToSpeech (answers rq) 0 = Fail e)
       \/ (exists e, lipSync (answers rq) 0 = Fail e)
       \/ (exists e, audioFile (answers rq) 0 = Fail e)
       \/ (exists e, lipsyncFile (answers rq) 0 = Fail e)))
  \/ (startsWith m "data:audio" = false /\ m <> "" /\ keys_present env
      /\ ((exists e, completion (answers rq) = Fail e)
          \/ (exists ms k,
                 completion (answers rq) = Ok ms /\ k < length ms
                 /\ ((exists e, textToSpeech (answers rq) k = Fail e)
                     \/ (exists e, lipSync (answers rq) k = Fail e)
                     \/ (exists e, audioFile (answers rq) k = Fail e)
                     \/ (exists e, lipsyncFile (answers rq) k = Fail e))))) ->
  exists s' cs e,
    serve env s rq = (s', cs, RespError e)
    /\ historial_json s' = historial_json s
    /\ resumen_json s' = resumen_json s.
Proof.
  intros Hl Hm [(Ha & Hfail)|(Ha & Hne & (Hk1 & Hk2) & Hfail)];
    rewrite (serve_live env Hl).
  - erewrite route_audio by eassumption.
    destruct (parseDataUrl m) as [[[buffer mime] ext]|e0] eqn:Hp.
    2:{ erewrite chat_audio_parse_fails by eassumption. cbn. eauto 6. }
    destruct (whisper (answers rq)) as [tr|e1] eqn:Hw.
    2:{ erewrite chat_audio_transcription_fails by eassumption.
        cbn. eauto 6. }
    erewrite chat_audio_run by eassumption. cbv zeta.
    destruct (reply (answers rq)) as [rp|e2]; [|cbn; eauto 6].
    destruct (textToSpeech (answers rq) 0) as [[]|e3]; [|cbn; eauto 6].
    destruct (lipSync (answers rq) 0) as [[]|e4]; [|cbn; eauto 6].
    destruct (audioFile (answers rq) 0) as [au|e5]; [|cbn; eauto 6].
    destruct (lipsyncFile (answers rq) 0) as [ls|e6]; [|cbn; eauto 6].
    exfalso.
    destruct Hfail as [[e H]|[[e H]|[[e H]|[[e H]|[[e H]|[e H]]]]]];
      discriminate H.
  - unfold chat_routes, is_audio. rewrite Hm, Ha.
    destruct m as [|c m']; [congruence|]. cbn [falsy].
    unfold elevenLabsApiKey. rewrite Hk1, Hk2. cbn [orb or_default].
    unfold chat_text, arrived, finish. run_monad.
    destruct Hfail as [[e He]|(ms & k & Hc & Hk & Hfail)].
    + rewrite He. eauto 6.
    + rewrite Hc.
      match goal with
      | |- context [legacy_messages env ?a 0 ms ?w1] =>
          destruct (@legacy_messages_fails env a ms 0 k w1 Hk Hfail)
            as (w' & e & E & Hs)
      end.
      rewrite E, Hs. cbn [session]. eauto 6.
Qed.

Lemma essential_failure_aborts_witness :
  exists s' cs e,
    serve Sample.with_keys Sample.one_turn
      (Sample.request (Some Sample.voice_note)
         (Sample.set_reply (Fail "generation failed")
            (Sample.answering "tengo un mal dia")) 1000)
    = (s', cs, RespError e)
    /\ historial_json s' = historial_json Sample.one_turn
    /\ resumen_json s' = resumen_json Sample.one_turn.
Proof.
  apply (@essential_failure_aborts _ _ _ Sample.voice_note).
  - split; [reflexivity | vm_compute; reflexivity].
  - reflexivity.
  - left. split; [reflexivity|]. right. left. eexists. reflexivity.
Defined.

(** ** A reply that reaches persistence *)

Lemma serve_persisted (env : Env) (s : Session) (rq : Request)
    (m buffer mime ext : string) (tr rp : option string) (au ls : string) :
  live s rq ->
  stages_ok rq m buffer mime ext tr rp au ls ->
  serve env s rq
  = let a := answers rq in
    let s0 := set_lastActivity (t_arrival rq) s in
    let w4 := {| session := persisted rq s0 tr rp;
                 calls := pipeline_calls env rq s buffer mime ext tr rp |} in
    match maybeUpdateSummary a (t_summary rq) w4 with
    | (w5, Ok _) =>
        (set_lastActivity (t_done rq) (session w5), calls w5,
         RespReply (or_default tr "") (sent_label a) (emo_label a)
           (reply_message rq s rp au ls))
    | (w5, Fail e) => (session w5, calls w5, RespError e)
    end.
Proof.
  intros Hl (Hm & Ha & Hp & Hw & Hr & Ht & Hy & Hau & Hls).
  rewrite (serve_live env Hl).
  erewrite route_audio by eassumption.
  erewrite chat_audio_run by eassumption.
  cbv zeta. rewrite Hr, Ht, Hy, Hau, Hls.
  unfold arrived. cbn [session calls Datatypes.app].
  unfold pipeline_calls. norm_calls.
  change (front_calls rq (set_lastActivity (t_arrival rq) s))
    with (front_calls rq s).
  change (reply_message rq (set_lastActivity (t_arrival rq) s))
    with (reply_message rq s).
  match goal with
  | |- context [maybeUpdateSummary ?x ?y ?z] =>
      destruct (maybeUpdateSummary x y z) as [w5 [[]|e]]
  end; reflexivity.
Qed.

Lemma turns_of_persisted (rq : Request) (s : Session) (tr rp : option string) :
  turns_of (persisted rq s tr rp)
  = obj_set (turns_of s) (turn_key (next_index (turns_of s)))
      (new_turn rq tr rp).
Proof. reflexivity. Qed.

(** ** Summarizer failure *)

(** C1, as the program has it.  When every stage up to and including the
    storing of the turn succeeds, the stored collection is longer than the
    threshold and the summarization call fails, the Summary Record is left
    as it was and the new turn stays stored, but the request answers with
    the 500 error result carrying the summarizer's message. *)
Theorem summarizer_failure_is_reported (env : Env) (s : Session)
    (rq : Request) (m buffer mime ext : string) (tr rp : option string)
    (au ls e : string) :
  live s rq ->
  stages_ok rq m buffer mime ext tr rp au ls ->
  (MAX_CONTEXT_CHARS < serialized_length (turns_of (persisted rq s tr rp)))%N ->
  summary (answers rq) = Fail e ->
  exists s' cs,
    serve env s rq = (s', cs, RespError e)
    /\ resumen_json s' = resumen_json s
    /\ historial_json s' = Stored (turns_of (persisted rq s tr rp))
    /\ filter is_summarization cs
       = [Summarization (summary_text (readJsonSafe (resumen_json s) None))
            (turns_of (persisted rq s tr rp))].
Proof.
  intros Hl Hok Hsize He.
  rewrite (serve_persisted env Hl Hok). cbv zeta.
  rewrite maybeUpdateSummary_above by exact Hsize.
  cbv zeta. rewrite He. cbn [session calls].
  do 2 eexists. split; [reflexivity|].
  split; [reflexivity|]. split; [reflexivity|].
  unfold pipeline_calls, front_calls.
  rewrite !filter_app. cbn [filter is_summarization Datatypes.app].
  reflexivity.
Qed.

Lemma long_note_stages_ok (a : Answers) (t : Z) (tr rp : option string)
    (au ls : string) :
  whisper a = Ok tr -> reply a = Ok rp ->
  textToSpeech a 0 = Ok tt -> lipSync a 0 = Ok tt ->
  audioFile a 0 = Ok au -> lipsyncFile a 0 = Ok ls ->
  stages_ok (Sample.request (Some Sample.voice_note) a t) Sample.voice_note
    "AAAA" "audio/webm" "webm" tr rp au ls.
Proof.
  intros. unfold stages_ok. cbn [answers message Sample.request].
  repeat split; try assumption; reflexivity.
Qed.

Lemma sample_request_live (s : Session) (msg : option string) (a : Answers)
    (t : Z) :
  sessionExpired s = false -> live s (Sample.request msg a t).
Proof.
  intros H. split; [exact H|].
  cbn [t_gate t_arrival Sample.request]. unfold INACTIVITY_MS. lia.
Qed.

Lemma summarizer_failure_is_reported_witness :
  exists s' cs,
    serve Sample.with_keys Sample.fresh Sample.long_note_summarizer_down
    = (s', cs, RespError "summary unavailable")
    /\ resumen_json s' = resumen_json Sample.fresh
    /\ historial_json s'
       = Stored (turns_of (persisted Sample.long_note_summarizer_down
                             Sample.fresh (Some Sample.long_transcript)
                             (Some " Te escucho. ")))
    /\ filter is_summarization cs
       = [Summarization
            (summary_text (readJsonSafe (resumen_json Sample.fresh) None))
            (turns_of (persisted Sample.long_note_summarizer_down
                         Sample.fresh (Some Sample.long_transcript)
                         (Some " Te escucho. ")))].
Proof.
  apply (@summarizer_failure_is_reported Sample.with_keys Sample.fresh
           Sample.long_note_summarizer_down Sample.voice_note
           "AAAA" "audio/webm" "webm" (Some Sample.long_transcript)
           (Some " Te escucho. ") "QUJD" "{}" "summary unavailable").
  - apply sample_request_live. reflexivity.
  - apply long_note_stages_ok; reflexivity.
  - vm_compute. reflexivity.
  - reflexivity.
Defined.

(** C1, as the specification words it, fails: with every stage up to
    persistence succeeding and the summarizer down, the request does not
    answer with a reply but with an error result. *)
Lemma summarizer_failure_not_hidden :
  live Sample.fresh Sample.long_note_summarizer_down
  /\ stages_ok Sample.long_note_summarizer_down Sample.voice_note
       "AAAA" "audio/webm" "webm" (Some Sample.long_transcript)
       (Some " Te escucho. ") "QUJD" "{}"
  /\ summary (answers Sample.long_note_summarizer_down)
     = Fail "summary unavailable"
  /\ existsb is_summarization
       (snd (fst (serve Sample.with_keys Sample.fresh
                    Sample.long_note_summarizer_down))) = true
  /\ is_reply (snd (serve Sample.with_keys Sample.fresh
                      Sample.long_note_summarizer_down)) = false
  /\ snd (serve Sample.with_keys Sample.fresh
            Sample.long_note_summarizer_down)
     = RespError "summary unavailable".
Proof.
  split; [apply sample_request_live; reflexivity|].
  split; [apply long_note_stages_ok; reflexivity|].
  split; [reflexivity|].
  repeat split; vm_compute; reflexivity.
Qed.

(** ** Summarization trigger *)

Lemma maybeUpdateSummary_frame (a : Answers) (now : Z) (w w' : World)
    (o : Outcome unit) :
  maybeUpdateSummary a now w = (w', o) ->
  historial_json (session w') = historial_json (session w)
  /\ intro_files (session w') = intro_files (session w)
  /\ sessionExpired (session w') = sessionExpired (session w).
Proof.
  unfold maybeUpdateSummary. run_monad.
  destruct (_ <=? _)%N.
  - intros E. injection E as <- _. auto.
  - destruct (summary a); intros E; injection E as <- _; auto.
Qed.

(** C6, as the program has it.  After an append that the earlier stages
    completed, the summarization call is made exactly when the serialized
    size of the whole collection exceeds 10,000 characters, and then
    once; when it answers, the Summary Record is replaced and its
    [total_conversaciones] is the number of turns in the collection at
    that moment; when it fails, the Summary Record is unchanged; at or
    below the threshold there is no such call and the Summary Record is
    unchanged. *)
Theorem summary_after_append (env : Env) (s : Session) (rq : Request)
    (m buffer mime ext : string) (tr rp : option string) (au ls : string) :
  live s rq ->
  stages_ok rq m buffer mime ext tr rp au ls ->
  let h' := turns_of (persisted rq s tr rp) in
  let prev := summary_text (readJsonSafe (resumen_json s) None) in
  exists s' cs r,
    serve env s rq = (s', cs, r)
    /\ historial_json s' = Stored h'
    /\ filter is_summarization cs
       = (if (MAX_CONTEXT_CHARS <? serialized_length h')%N
          then [Summarization prev h'] else [])
    /\ ((serialized_length h' <= MAX_CONTEXT_CHARS)%N ->
        resumen_json s' = resumen_json s)
    /\ (forall out,
          (MAX_CONTEXT_CHARS < serialized_length h')%N ->
          summary (answers rq) = Ok out ->
          resumen_json s'
          = Stored (Some {| resumen := trim (or_default out "");
                            updatedAt := t_summary rq;
                            total_conversaciones := length (keys h') |}))
    /\ (forall e,
          (MAX_CONTEXT_CHARS < serialized_length h')%N ->
          summary (answers rq) = Fail e ->
          resumen_json s' = resumen_json s).
Proof.
  intros Hl Hok h' prev.
  rewrite (serve_persisted env Hl Hok). cbv zeta.
  assert (Hfront :
    filter is_summarization (pipeline_calls env rq s buffer mime ext tr rp)
    = []) by reflexivity.
  destruct (N.ltb_spec MAX_CONTEXT_CHARS (serialized_length h')) as [Hgt|Hle].
  - rewrite maybeUpdateSummary_above by exact Hgt. cbv zeta.
    destruct (summary (answers rq)) as [out|e]; cbn [session calls];
      do 3 eexists; (split; [reflexivity|]);
      (split; [reflexivity|]);
      (split; [rewrite filter_app, Hfront; reflexivity|]);
      (split; [intros Hle; exfalso; fold h' in Hgt; lia|]);
      (split; intros x _ E;
       [ first [injection E as <-; reflexivity | discriminate E]
       | first [discriminate E | reflexivity] ]).
  - rewrite maybeUpdateSummary_below by exact Hle.
    do 3 eexists. split; [reflexivity|].
    split; [reflexivity|]. split; [exact Hfront|].
    split; [reflexivity|].
    split; [intros out Hgt | intros e Hgt]; exfalso; lia.
Qed.

Lemma summary_after_append_witness :
  let rq := Sample.long_note in
  let s := Sample.fresh in
  let h' := turns_of (persisted rq s (Some Sample.long_transcript)
                        (Some " Te escucho. ")) in
  let prev := summary_text (readJsonSafe (resumen_json s) None) in
  exists s' cs r,
    serve Sample.with_keys s rq = (s', cs, r)
    /\ historial_json s' = Stored h'
    /\ filter is_summarization cs
       = (if (MAX_CONTEXT_CHARS <? serialized_length h')%N
          then [Summarization prev h'] else [])
    /\ ((serialized_length h' <= MAX_CONTEXT_CHARS)%N ->
        resumen_json s' = resumen_json s)
    /\ (forall out,
          (MAX_CONTEXT_CHARS < serialized_length h')%N ->
          summary (answers rq) = Ok out ->
          resumen_json s'
          = Stored (Some {| resumen := trim (or_default out "");
                            updatedAt := t_summary rq;
                            total_conversaciones := length (keys h') |}))
    /\ (forall e,
          (MAX_CONTEXT_CHARS < serialized_length h')%N ->
          summary (answers rq) = Fail e ->
          resumen_json s' = resumen_json s).
Proof.
  apply (@summary_after_append Sample.with_keys Sample.fresh Sample.long_note
           Sample.voice_note "AAAA" "audio/webm" "webm"
           (Some Sample.long_transcript) (Some " Te escucho. ") "QUJD" "{}").
  - apply sample_request_live. reflexivity.
  - apply long_note_stages_ok; reflexivity.
Defined.

(** C6, as the specification words it, fails: the summarization call can
    occur without the Summary Record being replaced.  With one turn and
    its summary stored, a voice note whose turn takes the collection over
    the threshold is stored as turn 2 and the summarizer is called, once;
    the call fails, and the Summary Record is still the previous one,
    counting one turn where the collection holds two. *)
Lemma summary_not_replaced_when_call_fails :
  live Sample.one_turn Sample.long_note_summarizer_down
  /\ stages_ok Sample.long_note_summarizer_down Sample.voice_note
       "AAAA" "audio/webm" "webm" (Some Sample.long_transcript)
       (Some " Te escucho. ") "QUJD" "{}"
  /\ exists s' cs r,
       serve Sample.with_keys Sample.one_turn
         Sample.long_note_summarizer_down = (s', cs, r)
       /\ keys (turns_of s') = [turn_key 1; turn_key 2]
       /\ (MAX_CONTEXT_CHARS <? serialized_length (turns_of s'))%N = true
       /\ filter is_summarization cs
          = [Summarization "Saludo." (turns_of s')]
       /\ resumen_json s'
          = Stored (Some {| resumen := "Saludo."; updatedAt := 0;
                            total_conversaciones := 1 |})
       /\ resumen_json s' = resumen_json Sample.one_turn
       /\ length (keys (turns_of s')) = 2.
Proof.
  split; [apply sample_request_live; reflexivity|].
  split; [apply long_note_stages_ok; reflexivity|].
  do 3 eexists. split; [vm_compute; reflexivity|].
  repeat split; vm_compute; reflexivity.
Qed.

(** ** Index density *)

Lemma obj_get_set {A} (o : Obj A) (k : string) (v : A) :
  obj_get (obj_set o k v) k = Some v.
Proof.
  induction o as [|[k' v'] o IH]; cbn [obj_set obj_get].
  - now rewrite String.eqb_refl.
  - destruct (String.eqb_spec k' k) as [->|Hne]; cbn [obj_get].
    + now rewrite String.eqb_refl.
    + apply String.eqb_neq in Hne. now rewrite Hne.
Qed.

Lemma legacy_messages_no_session_change (env : Env) (a : Answers)
    (ms : list Message) (i : nat) (w w' : World) (o : Outcome (list Message)) :
  legacy_messages env a i ms w = (w', o) -> session w' = session w.
Proof.
  revert i w w' o. induction ms as [|m ms IH]; intros i w w' o.
  - cbn. intros E. now injection E as <- _.
  - cbn [legacy_messages]. unfold lipSyncMessage. run_monad.
    destruct (textToSpeech a i) as [[]|e]; [|intros E; now injection E as <- _].
    destruct (lipSync a i) as [[]|e]; [|intros E; now injection E as <- _].
    destruct (audioFile a i) as [au|e]; [|intros E; now injection E as <- _].
    destruct (lipsyncFile a i) as [ls|e]; [|intros E; now injection E as <- _].
    destruct (legacy_messages env a (S i) ms _) as [w1 [ms'|e]] eqn:E1;
      intros E; injection E as <- _; apply IH in E1; exact E1.
Qed.

(** What a response with [ok: true] tells about the request: it went
    through the audio branch, which stored one turn under the next key
    and derived the visuals from the emotion label and the number of
    turns stored before. *)
Lemma serve_reply_inv (env : Env) (s s' : Session) (rq : Request)
    (cs : list Call) (transcript sent emo : string) (msg : Message) :
  serve env s rq = (s', cs, RespReply transcript sent emo msg) ->
  let h := turns_of s in
  historial_json s'
  = Stored (obj_set h (turn_key (next_index h))
              {| user_responde := transcript; sentimiento := sent;
                 mia_emocion := emo; mia_text := text msg |})
  /\ sessionExpired s' = false
  /\ facialExpression msg
     = v_facialExpression
         (mapEmotionToVisuals (Some emo) (Z.of_nat (next_index h) - 1))
  /\ animation msg
     = v_animation
         (mapEmotionToVisuals (Some emo) (Z.of_nat (next_index h) - 1)).
Proof.
  intros E h.
  destruct (sessionExpired s) eqn:Hx.
  { rewrite (serve_expired env _ rq Hx) in E. discriminate E. }
  destruct (Z.ltb_spec (t_gate rq - t_arrival rq) INACTIVITY_MS) as [Hg|Hg].
  2:{ rewrite (serve_stale env _ rq Hx Hg) in E. discriminate E. }
  rewrite (serve_live env (conj Hx Hg)) in E.
  unfold chat_routes in E.
  destruct (is_audio (message rq)) eqn:Ha.
  - destruct (message rq) as [m|]; [|discriminate Ha].
    cbn [is_audio] in Ha. rewrite or_default_empty in E.
    destruct (parseDataUrl m) as [[[buffer mime] ext]|e0] eqn:Hp.
    2:{ erewrite chat_audio_parse_fails in E by eassumption.
        discriminate E. }
    destruct (whisper (answers rq)) as [tr|e1] eqn:Hw.
    2:{ erewrite chat_audio_transcription_fails in E by eassumption.
        discriminate E. }
    erewrite chat_audio_run in E by eassumption. cbv zeta in E.
    destruct (reply (answers rq)) as [rp|e2]; [|discriminate E].
    destruct (textToSpeech (answers rq) 0) as [[]|e3]; [|discriminate E].
    destruct (lipSync (answers rq) 0) as [[]|e4]; [|discriminate E].
    destruct (audioFile (answers rq) 0) as [au|e5]; [|discriminate E].
    destruct (lipsyncFile (answers rq) 0) as [ls|e6]; [|discriminate E].
    destruct (maybeUpdateSummary _ _ _) as [w5 [[]|e7]] eqn:Hs;
      [|discriminate E].
    apply maybeUpdateSummary_frame in Hs. destruct Hs as (Hh & _ & Hf).
    cbn [finish session calls] in E.
    injection E as <- _ <- <- <- <-.
    cbn [historial_json set_lastActivity sessionExpired].
    rewrite Hh, Hf. cbn [session arrived].
    repeat split; try reflexivity; exact Hx.
  - destruct (falsy (message rq)).
    + revert E. unfold chat_greeting, arrived, finish. run_monad.
      cbn [intro_files set_lastActivity].
      destruct (intro_files s); intros E; discriminate E.
    + destruct (falsy (elevenLabsApiKey env) || _)%bool.
      * revert E. unfold chat_missing_keys, arrived, finish. run_monad.
        intros E; discriminate E.
      * revert E. unfold chat_text, arrived, finish. run_monad.
        destruct (completion (answers rq)) as [ms|e];
          [|intros E; discriminate E].
        destruct (legacy_messages _ _ _ _ _) as [w1 [ms'|e]];
          intros E; discriminate E.
Qed.

Lemma serve_all_app (env : Env) (l1 l2 : list Request) (s : Session) :
  serve_all env s (l1 ++ l2)
  = (fst (serve_all env (fst (serve_all env s l1)) l2),
     (snd (serve_all env s l1)
      ++ snd (serve_all env (fst (serve_all env s l1)) l2))%list).
Proof.
  revert s. induction l1 as [|rq l1 IH]; intros s.
  - cbn. now destruct (serve_all env s l2).
  - cbn [serve_all Datatypes.app]. destruct (serve env s rq) as [[s1 cs] r].
    rewrite IH. destruct (serve_all env s1 l1) as [s2 rs]. reflexivity.
Qed.

(** One reply from a dense collection appends under the next key. *)
Lemma reply_appends (env : Env) (s : Session) (rq : Request) :
  dense (turns_of s) ->
  is_reply (snd (serve env s rq)) = true ->
  exists t,
    turns_of (fst (fst (serve env s rq)))
    = (turns_of s ++ [(turn_key (length (turns_of s) + 1), t)])%list
    /\ dense (turns_of (fst (fst (serve env s rq)))).
Proof.
  intros Hd Hr. destruct (serve env s rq) as [[s1 cs] r] eqn:E.
  cbn [fst snd] in *. destruct r; try discriminate Hr.
  apply serve_reply_inv in E. cbv zeta in E. destruct E as (Hh & _).
  match type of Hh with
  | _ = Stored ?h' =>
      assert (Ht : turns_of s1 = h')
        by (unfold turns_of at 1; rewrite Hh; reflexivity)
  end.
  rewrite Ht. eexists. apply dense_append. exact Hd.
Qed.

Lemma replies_keep_dense (env : Env) (rqs : list Request) (s : Session) :
  dense (turns_of s) ->
  Forall (fun r => is_reply r = true) (snd (serve_all env s rqs)) ->
  dense (turns_of (fst (serve_all env s rqs)))
  /\ length (turns_of (fst (serve_all env s rqs)))
     = length (turns_of s) + length rqs.
Proof.
  revert s. induction rqs as [|rq rqs IH]; intros s Hd Hall.
  - cbn. split; [exact Hd | lia].
  - cbn [serve_all] in *.
    pose proof (@reply_appends env s rq Hd) as Hstep.
    destruct (serve env s rq) as [[s1 cs] r].
    cbn [fst snd] in Hstep.
    specialize (IH s1).
    destruct (serve_all env s1 rqs) as [s2 rs]. cbn [fst snd] in *.
    inversion Hall as [|? ? Hr Hrs]; subst.
    destruct (Hstep Hr) as (t & Ht & Hd1).
    destruct (IH Hd1 Hrs) as (Hd2 & Hlen).
    split; [exact Hd2|].
    rewrite Hlen, Ht, length_app. cbn [length]. lia.
Qed.

(** C3. Along a sequence of requests that all answer with a reply,
    starting from an empty Turn Collection: after any prefix of [k]
    requests the collection holds exactly the keys of turns 1 to [k], in
    creation order, whatever the two classifiers answered; the next index
    is the number of turns plus one, and the next request stores its turn
    under that index. *)
Theorem index_density (env : Env) (s : Session) (pre post : list Request) :
  turns_of s = [] ->
  Forall (fun r => is_reply r = true) (snd (serve_all env s (pre ++ post))) ->
  let sk := fst (serve_all env s pre) in
  keys (turns_of sk) = map turn_key (seq 1 (length pre))
  /\ next_index (turns_of sk) = length (turns_of sk) + 1
  /\ length (turns_of sk) = length pre
  /\ forall rq post', post = rq :: post' ->
       exists t,
         turns_of (fst (fst (serve env sk rq)))
         = (turns_of sk ++ [(turn_key (next_index (turns_of sk)), t)])%list.
Proof.
  intros Hempty Hall sk.
  rewrite serve_all_app in Hall. cbn [snd] in Hall.
  apply Forall_app in Hall. destruct Hall as [Hpre Hpost].
  assert (Hd0 : dense (turns_of s)) by (rewrite Hempty; reflexivity).
  destruct (@replies_keep_dense env pre s Hd0 Hpre) as (Hd & Hlen).
  fold sk in Hd, Hlen, Hpost.
  rewrite Hempty in Hlen. cbn [length Nat.add] in Hlen.
  split; [unfold dense in Hd; now rewrite Hd, Hlen|].
  split; [now apply next_index_dense|].
  split; [exact Hlen|].
  intros rq post' ->. cbn [serve_all] in Hpost.
  pose proof (@reply_appends env sk rq Hd) as Hstep.
  destruct (serve env sk rq) as [[s1 cs] r]. cbn [fst snd] in *.
  destruct (serve_all env s1 post') as [s2 rs]. cbn [snd] in Hpost.
  inversion Hpost as [|? ? Hr _]; subst.
  destruct (Hstep Hr) as (t & Ht & _).
  exists t. rewrite (next_index_dense Hd). exact Ht.
Qed.

Lemma index_density_witness :
  let pre := firstn 2 Sample.three_notes in
  let sk := fst (serve_all Sample.with_keys Sample.fresh pre) in
  keys (turns_of sk) = map turn_key (seq 1 (length pre))
  /\ next_index (turns_of sk) = length (turns_of sk) + 1
  /\ length (turns_of sk) = length pre
  /\ forall rq post', skipn 2 Sample.three_notes = rq :: post' ->
       exists t,
         turns_of (fst (fst (serve Sample.with_keys sk rq)))
         = (turns_of sk ++ [(turn_key (next_index (turns_of sk)), t)])%list.
Proof.
  apply (@index_density Sample.with_keys Sample.fresh
           (firstn 2 Sample.three_notes) (skipn 2 Sample.three_notes)).
  - reflexivity.
  - vm_compute. repeat constructor.
Defined.

(** ** Optional stages *)

Lemma maybeUpdateSummary_ok (a : Answers) (now : Z) (w : World) :
  (forall e, summary a <> Fail e) ->
  exists w', maybeUpdateSummary a now w = (w', Ok tt).
Proof.
  intros H. unfold maybeUpdateSummary. run_monad.
  destruct (_ <=? _)%N; [eauto|].
  destruct (summary a) as [out|e]; [eauto|]. now destruct (H e).
Qed.

(** With a transcript in hand the audio branch always reaches the
    generation call, with the labels of [sent_label] and [emo_label]; when
    the remaining stages succeed it answers and stores with those labels. *)
Lemma audio_branch_continues (env : Env) (s : Session) (rq : Request)
    (m buffer mime ext : string) (tr : option string) :
  live s rq ->
  message rq = Some m ->
  startsWith m "data:audio" = true ->
  parseDataUrl m = Ok (buffer, mime, ext) ->
  whisper (answers rq) = Ok tr ->
  exists s' cs r rest,
    serve env s rq = (s', cs, r)
    /\ cs = (front_calls rq s buffer mime ext tr ++ rest)%list
    /\ forall rp au ls,
         reply (answers rq) = Ok rp ->
         textToSpeech (answers rq) 0 = Ok tt ->
         lipSync (answers rq) 0 = Ok tt ->
         audioFile (answers rq) 0 = Ok au ->
         lipsyncFile (answers rq) 0 = Ok ls ->
         (forall e, summary (answers rq) <> Fail e) ->
         r = RespReply (or_default tr "") (sent_label (answers rq))
               (emo_label (answers rq)) (reply_message rq s rp au ls)
         /\ historial_json s' = Stored (turns_of (persisted rq s tr rp)).
Proof.
  intros Hl Hm Ha Hp Hw.
  rewrite (serve_live env Hl).
  erewrite route_audio by eassumption.
  erewrite chat_audio_run by eassumption. cbv zeta.
  unfold arrived. cbn [session calls Datatypes.app].
  change (front_calls rq (set_lastActivity (t_arrival rq) s))
    with (front_calls rq s).
  destruct (reply (answers rq)) as [rp|e].
  2:{ do 3 eexists. exists [].
      split; [reflexivity|]. split; [cbn [calls]; now rewrite app_nil_r|].
      intros ? ? ? E; discriminate E. }
  destruct (textToSpeech (answers rq) 0) as [[]|e].
  2:{ do 4 eexists. split; [reflexivity|]. split; [reflexivity|].
      intros ? ? ? _ E; discriminate E. }
  destruct (lipSync (answers rq) 0) as [[]|e].
  2:{ do 4 eexists. split; [reflexivity|].
      split; [cbn [calls]; rewrite <- app_assoc; reflexivity|].
      intros ? ? ? _ _ E; discriminate E. }
  destruct (audioFile (answers rq) 0) as [au|e].
  2:{ do 4 eexists. split; [reflexivity|].
      split; [cbn [calls]; rewrite <- app_assoc; reflexivity|].
      intros ? ? ? _ _ _ E; discriminate E. }
  destruct (lipsyncFile (answers rq) 0) as [ls|e].
  2:{ do 4 eexists. split; [reflexivity|].
      split; [cbn [calls]; rewrite <- app_assoc; reflexivity|].
      intros ? ? ? _ _ _ _ E; discriminate E. }
  cbn [calls].
  destruct (maybeUpdateSummary _ _ _) as [w5 [[]|e]] eqn:Hs.
  - pose proof Hs as Hcalls.
    apply maybeUpdateSummary_frame in Hs. destruct Hs as (Hh & _).
    assert (exists extra, calls w5
             = ((front_calls rq s buffer mime ext tr
                 ++ [speech_call env rp]) ++ [LipSync 0]) ++ extra)%list
      as [extra Hextra].
    { revert Hcalls. unfold maybeUpdateSummary. run_monad.
      destruct (_ <=? _)%N.
      - intros E. injection E as <-. exists []. cbn [calls].
        now rewrite app_nil_r.
      - destruct (summary (answers rq)); intros E; injection E as <-;
          eexists; reflexivity. }
    do 4 eexists. split; [reflexivity|].
    split; [cbn [calls]; rewrite Hextra, <- !app_assoc; reflexivity|].
    intros rp' au' ls' E1 _ _ E2 E3 _.
    injection E1 as <-. injection E2 as <-. injection E3 as <-.
    split; [reflexivity|].
    cbn [session historial_json set_lastActivity].
    rewrite Hh. reflexivity.
  - exists (session w5), (calls w5), (RespError e).
    assert (exists extra, calls w5
             = ((front_calls rq s buffer mime ext tr
                 ++ [speech_call env rp]) ++ [LipSync 0]) ++ extra)%list
      as [extra Hextra].
    { revert Hs. unfold maybeUpdateSummary. run_monad.
      destruct (_ <=? _)%N.
      - intros E. injection E as <-. exists []. cbn [calls].
        now rewrite app_nil_r.
      - destruct (summary (answers rq)); intros E; injection E as <-;
          eexists; reflexivity. }
    eexists. split; [reflexivity|].
    split; [rewrite Hextra, <- !app_assoc; reflexivity|].
    intros rp' au' ls' _ _ _ _ _ Hne. exfalso.
    destruct (@maybeUpdateSummary_ok (answers rq) (t_summary rq)
                {| session :=
                     persisted rq (set_lastActivity (t_arrival rq) s) tr rp;
                   calls := ((front_calls rq s buffer mime ext tr
                              ++ [speech_call env rp]) ++ [LipSync 0])%list |}
                Hne) as [w' Hw'].
    rewrite Hw' in Hs. discriminate Hs.
Qed.

(** C5. In every reply request that has a transcript, a failing
    sentiment classifier leaves the label "neutral" and a failing emotion
    predictor leaves the label "default"; either way the request goes on:
    the later collaborators are invoked with those labels and, when the
    remaining stages succeed, the reply and the stored turn carry them. *)
Theorem optional_failures_default (env : Env) (s : Session) (rq : Request)
    (m buffer mime ext : string) (tr : option string) :
  live s rq ->
  message rq = Some m ->
  startsWith m "data:audio" = true ->
  parseDataUrl m = Ok (buffer, mime, ext) ->
  whisper (answers rq) = Ok tr ->
  exists s' cs r,
    serve env s rq = (s', cs, r)
    /\ ((exists e, sentiment (answers rq) = Fail e) ->
        (exists emo res rec total rest,
            cs = ([ Transcription buffer ("audio." ++ ext) mime;
                    Sentiment (or_default tr "");
                    MiaPredict (or_default tr "") "neutral";
                    ReplyGeneration res rec (or_default tr "") "neutral" emo
                      total ] ++ rest)%list)
        /\ forall rp au ls,
             reply (answers rq) = Ok rp ->
             textToSpeech (answers rq) 0 = Ok tt ->
             lipSync (answers rq) 0 = Ok tt ->
             audioFile (answers rq) 0 = Ok au ->
             lipsyncFile (answers rq) 0 = Ok ls ->
             (forall e, summary (answers rq) <> Fail e) ->
             exists emo msg t,
               r = RespReply (or_default tr "") "neutral" emo msg
               /\ obj_get (turns_of s') (turn_key (next_index (turns_of s)))
                  = Some t
               /\ sentimiento t = "neutral")
    /\ ((exists e, mia_predict (answers rq) = Fail e) ->
        (exists sent res rec total rest,
            cs = ([ Transcription buffer ("audio." ++ ext) mime;
                    Sentiment (or_default tr "");
                    MiaPredict (or_default tr "") sent;
                    ReplyGeneration res rec (or_default tr "") sent "default"
                      total ] ++ rest)%list)
        /\ forall rp au ls,
             reply (answers rq) = Ok rp ->
             textToSpeech (answers rq) 0 = Ok tt ->
             lipSync (answers rq) 0 = Ok tt ->
             audioFile (answers rq) 0 = Ok au ->
             lipsyncFile (answers rq) 0 = Ok ls ->
             (forall e, summary (answers rq) <> Fail e) ->
             exists sent msg t,
               r = RespReply (or_default tr "") sent "default" msg
               /\ facialExpression msg = "default"
               /\ obj_get (turns_of s') (turn_key (next_index (turns_of s)))
                  = Some t
               /\ mia_emocion t = "default").
Proof.
  intros Hl Hm Ha Hp Hw.
  destruct (audio_branch_continues env Hl Hm Ha Hp Hw)
    as (s' & cs & r & rest & E & Hcs & Hok).
  exists s', cs, r. split; [exact E|].
  assert (Hstored : forall rp,
             historial_json s' = Stored (turns_of (persisted rq s tr rp)) ->
             obj_get (turns_of s') (turn_key (next_index (turns_of s)))
             = Some (new_turn rq tr rp)).
  { intros rp Hh. unfold turns_of at 1. rewrite Hh. cbn [readJsonSafe].
    rewrite turns_of_persisted. apply obj_get_set. }
  split.
  - intros [e He]. split.
    + rewrite Hcs. unfold front_calls, sent_label. rewrite He.
      cbn [Datatypes.app]. do 5 eexists. reflexivity.
    + intros rp au ls H1 H2 H3 H4 H5 H6.
      destruct (Hok rp au ls H1 H2 H3 H4 H5 H6) as (Hr & Hh).
      do 3 eexists. split; [|split; [exact (Hstored rp Hh)|]].
      * rewrite Hr. unfold sent_label. rewrite He. reflexivity.
      * cbn [new_turn sentimiento]. unfold sent_label. now rewrite He.
  - intros [e He]. split.
    + rewrite Hcs. unfold front_calls, emo_label. rewrite He.
      cbn [Datatypes.app]. do 5 eexists. reflexivity.
    + intros rp au ls H1 H2 H3 H4 H5 H6.
      destruct (Hok rp au ls H1 H2 H3 H4 H5 H6) as (Hr & Hh).
      do 3 eexists. split; [|split; [|split; [exact (Hstored rp Hh)|]]].
      * rewrite Hr. unfold emo_label. rewrite He. reflexivity.
      * unfold reply_message, emo_label. rewrite He. reflexivity.
      * cbn [new_turn mia_emocion]. unfold emo_label. now rewrite He.
Qed.

Lemma optional_failures_default_witness :
  let rq := Sample.note_classifiers_down in
  let s := Sample.one_turn in
  let tr := Some "tengo un mal dia" in
  exists s' cs r,
    serve Sample.with_keys s rq = (s', cs, r)
    /\ ((exists e, sentiment (answers rq) = Fail e) ->
        (exists emo res rec total rest,
            cs = ([ Transcription "AAAA" ("audio." ++ "webm") "audio/webm";
                    Sentiment (or_default tr "");
                    MiaPredict (or_default tr "") "neutral";
                    ReplyGeneration res rec (or_default tr "") "neutral" emo
                      total ] ++ rest)%list)
        /\ forall rp au ls,
             reply (answers rq) = Ok rp ->
             textToSpeech (answers rq) 0 = Ok tt ->
             lipSync (answers rq) 0 = Ok tt ->
             audioFile (answers rq) 0 = Ok au ->
             lipsyncFile (answers rq) 0 = Ok ls ->
             (forall e, summary (answers rq) <> Fail e) ->
             exists emo msg t,
               r = RespReply (or_default tr "") "neutral" emo msg
               /\ obj_get (turns_of s') (turn_key (next_index (turns_of s)))
                  = Some t
               /\ sentimiento t = "neutral")
    /\ ((exists e, mia_predict (answers rq) = Fail e) ->
        (exists sent res rec total rest,
            cs = ([ Transcription "AAAA" ("audio." ++ "webm") "audio/webm";
                    Sentiment (or_default tr "");
                    MiaPredict (or_default tr "") sent;
                    ReplyGeneration res rec (or_default tr "") sent "default"
                      total ] ++ rest)%list)
        /\ forall rp au ls,
             reply (answers rq) = Ok rp ->
             textToSpeech (answers rq) 0 = Ok tt ->
             lipSync (answers rq) 0 = Ok tt ->
             audioFile (answers rq) 0 = Ok au ->
             lipsyncFile (answers rq) 0 = Ok ls ->
             (forall e, summary (answers rq) <> Fail e) ->
             exists sent msg t,
               r = RespReply (or_default tr "") sent "default" msg
               /\ facialExpression msg = "default"
               /\ obj_get (turns_of s') (turn_key (next_index (turns_of s)))
                  = Some t
               /\ mia_emocion t = "default").
Proof.
  apply (@optional_failures_default Sample.with_keys Sample.one_turn
           Sample.note_classifiers_down Sample.voice_note
           "AAAA" "audio/webm" "webm" (Some "tengo un mal dia")).
  - apply sample_request_live. reflexivity.
  - reflexivity.
  - reflexivity.
  - reflexivity.
  - reflexivity.
Defined.

(** The scenario of the specification, run: both classifiers throw,
    generation succeeds, and the answer is a reply with the labels
    "neutral" and "default", a non-empty text and the visuals
    [default] and [Talking_1] for the second turn. *)
Example graceful_degradation :
  snd (serve Sample.with_keys Sample.one_turn Sample.note_classifiers_down)
  = RespReply "tengo un mal dia" "neutral" "default"
      {| text := "Te escucho.";
         audio := Some "QUJD";
         lipsync := Some "{}";
         facialExpression := "default";
         animation := "Talking_1" |}.
Proof. vm_compute. reflexivity. Qed.

(** ** Context window *)








(** The context composer only reads. *)
Lemma loadContextForLLM_readonly (w : World) :
  loadContextForLLM w
  = (w, Ok {| ctx_resumen :=
                summary_text (readJsonSafe (resumen_json (session w)) None);
              ctx_recientes := formatRecentTurns (turns_of (session w));
              ctx_total_conversaciones :=
                length (keys (turns_of (session w))) |}).
Proof. reflexivity. Qed.



(** Ten turns, run: the text starts with the block of turn 5, holds
    those of turns 5 to 10 in this order, and holds none of turns 1
    to 4. *)
Example ten_turns_text :
  let txt := formatRecentTurns (collection Sample.ten_turns) in
  map (fun i => index 0 ("[" ++ turn_key i ++ "]") txt) [1; 2; 3; 4]
  = [None; None; None; None]
  /\ map (fun i => index 0 ("[" ++ turn_key i ++ "]") txt) [5; 6; 7; 8; 9; 10]
     = [Some 0; Some 55; Some 110; Some 165; Some 220; Some 275].
Proof. vm_compute. split; reflexivity. Qed.

(** ** Visual mapping *)


Lemma rotating_animation (n : nat) :
  rotatingTalkingAnimation (Z.of_nat n) = talking (n mod 3).
Proof.
  unfold rotatingTalkingAnimation.
  rewrite Z.rem_mod_nonneg by lia.
  change 3%Z with (Z.of_nat 3). rewrite <- Nat2Z.inj_mod.
  pose proof (Nat.mod_upper_bound n 3 ltac:(discriminate)) as Hlt.
  destruct (n mod 3) as [|[|[|k]]]; try reflexivity. lia.
Qed.




(** Upper case and accents: the labels are matched after
    [toLowerCase]. *)
Example expression_ignores_case :
  map (fun l => v_facialExpression (mapEmotionToVisuals (Some l) 0))
      [ "ALEGR" ++ unit_of 205 ++ "A"; "Amor"; "TRISTEZA"; "Ira"; "MIEDO";
        "Sorpresa"; "calma"; "" ]
  = [ "smile"; "smile"; "sad"; "angry"; "surprised"; "surprised";
      "default"; "default" ].
Proof. vm_compute. reflexivity. Qed.

(** ** Missing credentials *)

(** C9, as the program has it.  The test for missing credentials guards
    the text chat only: a live request whose message is a non-empty text
    that is not a recorded utterance, made while the ElevenLabs key or the
    OpenAI key is missing, answers with the message that asks for the API
    keys (status 200, not a 500), invokes no collaborator and writes
    neither document.  Requests with a recorded utterance or without
    message are routed before the test and are not covered. *)
Theorem missing_keys_text_request (env : Env) (s : Session) (rq : Request)
    (m : string) :
  live s rq ->
  message rq = Some m ->
  m <> "" ->
  startsWith m "data:audio" = false ->
  falsy (ELEVEN_LABS_API_KEY env) = true
  \/ falsy (OPENAI_API_KEY env) = true ->
  serve env s rq
  = (set_lastActivity (t_done rq) s, [], RespMessages [missing_keys_message]).
Proof.
  intros Hl Hm Hne Ha Hk. rewrite (serve_live env Hl).
  unfold chat_routes, is_audio. rewrite Hm, Ha.
  destruct m as [|c m]; [congruence|]. cbn [falsy].
  assert (Hmiss : (falsy (elevenLabsApiKey env)
                   || String.eqb (openai_apiKey env) "-")%bool = true).
  { unfold elevenLabsApiKey, openai_apiKey.
    destruct Hk as [Hk|Hk]; [now rewrite Hk|].
    destruct (OPENAI_API_KEY env) as [[|c' k]|]; try discriminate Hk;
      cbn [or_default]; apply orb_true_r. }
  rewrite Hmiss. unfold chat_missing_keys, arrived, finish. run_monad.
  reflexivity.
Qed.

Lemma missing_keys_text_request_witness :
  serve Sample.without_keys Sample.one_turn
    (Sample.request (Some "hola") (Sample.answering "") 1000)
  = (set_lastActivity 1002 Sample.one_turn, [],
     RespMessages [missing_keys_message]).
Proof.
  apply (@missing_keys_text_request Sample.without_keys Sample.one_turn
           (Sample.request (Some "hola") (Sample.answering "") 1000) "hola").
  - apply sample_request_live. reflexivity.
  - reflexivity.
  - discriminate.
  - reflexivity.
  - left. reflexivity.
Defined.

(** C9, as the specification words it, fails: without credentials a
    recorded utterance goes into the pipeline, and when Whisper rejects
    the call the request answers with the 500 error result; and a request
    without message answers with the greeting, not with an explanation. *)
Lemma missing_keys_not_always_explained :
  serve Sample.without_keys Sample.fresh
    (Sample.request (Some Sample.voice_note)
       (Sample.set_whisper (Fail "401 Incorrect API key provided")
          (Sample.answering "")) 1000)
  = (set_lastActivity 1000 Sample.fresh,
     [Transcription "AAAA" "audio.webm" "audio/webm"],
     RespError "401 Incorrect API key provided")
  /\ snd (serve Sample.without_keys Sample.fresh
            (Sample.request None (Sample.answering "") 1000))
     = RespMessages [greeting_message "UklGRg==" "{}"]
  /\ RespMessages [greeting_message "UklGRg==" "{}"]
     <> RespMessages [missing_keys_message].
Proof.
  split; [vm_compute; reflexivity|].
  split; [vm_compute; reflexivity|]. discriminate.
Qed.

(** ** The greeting *)

(** C10, as the program has it.  In a session that is not expired, a
    request with an empty or absent message invokes no collaborator and
    leaves the Turn Collection, its count, the next index and the Summary
    Record as they were; it answers with the recorded greeting when the
    two intro files can be read and with an error result when they
    cannot. *)
Theorem greeting_writes_nothing (env : Env) (s : Session) (rq : Request) :
  live s rq ->
  falsy (message rq) = true ->
  exists s' r,
    serve env s rq = (s', [], r)
    /\ historial_json s' = historial_json s
    /\ resumen_json s' = resumen_json s
    /\ length (turns_of s') = length (turns_of s)
    /\ next_index (turns_of s') = next_index (turns_of s)
    /\ (forall au ls, intro_files s = Some (au, ls) ->
                      r = RespMessages [greeting_message au ls])
    /\ (intro_files s = None -> r = RespError enoent).
Proof.
  intros Hl Hf. rewrite (serve_live env Hl).
  rewrite (route_greeting env rq _ Hf).
  unfold chat_greeting, arrived, finish. run_monad.
  cbn [intro_files set_lastActivity].
  destruct (intro_files s) as [[au ls]|]; cbn [session calls];
    do 2 eexists; (split; [reflexivity|]);
    repeat split; try reflexivity; intros; try congruence.
  injection H as <- <-. reflexivity.
Qed.

Lemma greeting_writes_nothing_witness :
  exists s' r,
    serve Sample.with_keys Sample.one_turn
      (Sample.request None (Sample.answering "") 1000) = (s', [], r)
    /\ historial_json s' = historial_json Sample.one_turn
    /\ resumen_json s' = resumen_json Sample.one_turn
    /\ length (turns_of s') = length (turns_of Sample.one_turn)
    /\ next_index (turns_of s') = next_index (turns_of Sample.one_turn)
    /\ (forall au ls, intro_files Sample.one_turn = Some (au, ls) ->
                      r = RespMessages [greeting_message au ls])
    /\ (intro_files Sample.one_turn = None -> r = RespError enoent).
Proof.
  apply (@greeting_writes_nothing Sample.with_keys Sample.one_turn
           (Sample.request None (Sample.answering "") 1000)).
  - apply sample_request_live. reflexivity.
  - reflexivity.
Defined.

(** C10, as stated for every session state, fails: while the expired flag
    is raised a request without message does not get the greeting, and
    both documents are wiped. *)
Lemma greeting_not_in_expired_session :
  serve Sample.with_keys Sample.one_turn_expired
    (Sample.request None (Sample.answering "") 1000)
  = (wiped 1002, [], RespExpired)
  /\ historial_json (wiped 1002) <> historial_json Sample.one_turn_expired
  /\ resumen_json (wiped 1002) <> resumen_json Sample.one_turn_expired
  /\ length (turns_of (wiped 1002))
     <> length (turns_of Sample.one_turn_expired).
Proof.
  split; [apply serve_expired; reflexivity|].
  split; [discriminate|]. split; [discriminate|].
  vm_compute. discriminate.
Qed.

(** ** Inactivity *)

(** The synchronous head of the watchdog raises the flag on a stale,
    active session and touches nothing else. *)
Lemma watchdog_expire_raises_flag (now : Z) (w : World) :
  sessionExpired (session w) = false ->
  (INACTIVITY_MS <= now - lastActivity (session w))%Z ->
  watchdog_expire now w
  = ({| session := set_sessionExpired true (session w); calls := calls w |},
     Ok true).
Proof.
  intros Hx Hidle. unfold watchdog_expire. run_monad.
  rewrite Hx. apply Z.leb_le in Hidle. rewrite Hidle. reflexivity.
Qed.

(** The whole callback on a stale, active session: both documents are
    cleared, and the session is active again with a fresh stamp. *)
Lemma watchdog_wipes (now now' : Z) (s : Session) :
  sessionExpired s = false ->
  (INACTIVITY_MS <= now - lastActivity s)%Z ->
  run_watchdog now now' s = wiped now'.
Proof.
  intros Hx Hidle. unfold run_watchdog, watchdog.
  unfold bind at 1. rewrite watchdog_expire_raises_flag by assumption.
  reflexivity.
Qed.

(** Otherwise the callback does nothing. *)
Lemma watchdog_idle (now now' : Z) (s : Session) :
  sessionExpired s = true \/ (now - lastActivity s < INACTIVITY_MS)%Z ->
  run_watchdog now now' s = s.
Proof.
  intros H. unfold run_watchdog, watchdog, watchdog_expire. run_monad.
  destruct (sessionExpired s) eqn:Hx; cbn [negb andb].
  - reflexivity.
  - destruct H as [H|H]; [discriminate H|].
    apply Z.ltb_lt in H. rewrite Z.ltb_antisym in H.
    apply negb_true_iff in H. rewrite H. reflexivity.
Qed.

(** X2. A reply request that finds the flag raised is cut short: the wipe,
    the session-expired answer, no collaborator. *)
Lemma expired_request_short_circuits (env : Env) (s : Session) (rq : Request) :
  sessionExpired s = true ->
  serve env s rq = (wiped (t_done rq), [], RespExpired).
Proof. apply serve_expired. Qed.

(** C2 on the program.  A session with one turn, idle for more than five
    minutes: after the liveness check both documents are cleared but the
    session is not expired, because [resetSession] lowers the flag the
    watchdog has just raised; the reply request that follows is not
    answered with session-expired, it runs the pipeline and stores turn
    1. *)
Lemma watchdog_leaves_session_active :
  let stale := Sample.one_turn in
  let s1 := run_watchdog 300001 300002 stale in
  let rq := Sample.request (Some Sample.voice_note) (Sample.answering "hola")
              300010 in
  (INACTIVITY_MS < 300001 - lastActivity stale)%Z
  /\ sessionExpired s1 = false
  /\ historial_json s1 = Stored []
  /\ resumen_json s1 = Stored None
  /\ is_reply (snd (serve Sample.with_keys s1 rq)) = true
  /\ snd (serve Sample.with_keys s1 rq) <> RespExpired
  /\ length (snd (fst (serve Sample.with_keys s1 rq))) = 6
  /\ keys (turns_of (fst (fst (serve Sample.with_keys s1 rq))))
     = [turn_key 1].
Proof.
  cbv zeta. split; [vm_compute; reflexivity|].
  rewrite watchdog_wipes by (try reflexivity; vm_compute; discriminate).
  repeat split; try reflexivity; vm_compute; try reflexivity; discriminate.
Qed.

(** ** Manual reset *)

(** [POST /reset] wipes the session whatever its state, and doing it
    again changes nothing but the stamp. *)
Lemma reset_wipes (arrival done : Z) (w : World) :
  post_reset arrival done w
  = ({| session := wiped done; calls := calls w |}, Ok true).
Proof.
  unfold post_reset. run_monad.
  destruct (sessionExpired (session w)); reflexivity.
Qed.

Lemma reset_twice (a1 d1 a2 d2 : Z) (w : World) :
  (post_reset a1 d1;; post_reset a2 d2) w
  = ({| session := wiped d2; calls := calls w |}, Ok true).
Proof. unfold bind. now rewrite !reset_wipes. Qed.

(** * Further properties of the handlers *)

(** ** What one request does to the session *)

Lemma maybeUpdateSummary_effect (a : Answers) (now : Z) (w w' : World)
    (o : Outcome unit) :
  maybeUpdateSummary a now w = (w', o) ->
  lastActivity (session w') = lastActivity (session w)
  /\ (resumen_json (session w') = resumen_json (session w)
      \/ exists sm,
           resumen_json (session w') = Stored (Some sm)
           /\ total_conversaciones sm = length (keys (turns_of (session w)))
           /\ o = Ok tt).
Proof.
  unfold maybeUpdateSummary. run_monad.
  destruct (_ <=? _)%N.
  - intros E. injection E as <- _. auto.
  - destruct (summary a); intros E; injection E as <- <-; cbn [session];
      split; try reflexivity; [right | left; reflexivity].
    eexists. split; [reflexivity|]. split; reflexivity.
Qed.

Lemma not_live_cases (s : Session) (rq : Request) :
  live s rq
  \/ sessionExpired s = true
  \/ (sessionExpired s = false
      /\ (INACTIVITY_MS <= t_gate rq - t_arrival rq)%Z).
Proof.
  destruct (sessionExpired s) eqn:Hx; [auto|].
  destruct (Z.ltb_spec (t_gate rq - t_arrival rq) INACTIVITY_MS);
    [left; split; assumption | auto].
Qed.

(** The text chat and its loop never write a document. *)
Lemma chat_text_run (env : Env) (rq : Request) (m : string) (w : World) :
  exists cs o,
    chat_text env rq m w
    = ({| session := match o with
                     | Ok _ => set_lastActivity (t_done rq) (session w)
                     | Fail _ => session w
                     end;
          calls := cs |}, o)
    /\ match o with
       | Ok (RespMessages _) | Fail _ => True
       | Ok _ => False
       end.
Proof.
  unfold chat_text. run_monad.
  destruct (completion (answers rq)) as [ms|e].
  - destruct (legacy_messages env (answers rq) 0 ms _) as [w1 [ms'|e]] eqn:E;
      apply legacy_messages_no_session_change in E; cbn [session] in E;
      destruct w1 as [s1 c1]; cbn [session calls] in *; subst s1.
    + exists c1, (Ok (RespMessages ms')). split; [reflexivity | exact I].
    + exists c1, (Fail e). split; [reflexivity | exact I].
  - eexists _, (Fail e). split; [reflexivity | exact I].
Qed.

(** Every way a [POST /chat] can end.  Either the expiry test cuts it
    short, or the request is live and then: the flag stays lowered, the
    intro files stay, the stamp is that of the middleware or of the end
    of the request, and the documents are untouched unless the audio
    branch stored its turn. *)
Lemma serve_cases (env : Env) (s s' : Session) (rq : Request)
    (cs : list Call) (r : Response) :
  serve env s rq = (s', cs, r) ->
  (~ live s rq /\ r = RespExpired /\ s' = wiped (t_done rq) /\ cs = [])
  \/ (live s rq /\ r <> RespExpired
      /\ sessionExpired s' = false
      /\ intro_files s' = intro_files s
      /\ (lastActivity s' = t_arrival rq \/ lastActivity s' = t_done rq)
      /\ ((historial_json s' = historial_json s
           /\ resumen_json s' = resumen_json s
           /\ is_reply r = false)
          \/ (exists t,
                historial_json s'
                = Stored (obj_set (turns_of s)
                            (turn_key (next_index (turns_of s))) t)
                /\ is_audio (message rq) = true
                /\ (is_reply r = true \/ exists e, r = RespError e)
                /\ (resumen_json s' = resumen_json s
                    \/ exists sm,
                         resumen_json s' = Stored (Some sm)
                         /\ total_conversaciones sm
                            = length (keys (turns_of s')))))).
Proof.
  intros E.
  destruct (not_live_cases s rq) as [Hl|[Hx|[Hx Hg]]].
  2:{ left. rewrite (serve_expired env _ rq Hx) in E.
      injection E as <- <- <-. repeat split; try reflexivity.
      intros [H _]. congruence. }
  2:{ left. rewrite (serve_stale env _ rq Hx Hg) in E.
      injection E as <- <- <-. repeat split; try reflexivity.
      intros [_ H]. lia. }
  right. split; [exact Hl|]. destruct Hl as [Hx Hg].
  rewrite (serve_live env (conj Hx Hg)) in E.
  unfold chat_routes in E.
  destruct (is_audio (message rq)) eqn:Ha.
  - destruct (message rq) as [m|]; [|discriminate Ha].
    cbn [is_audio] in Ha. rewrite or_default_empty in E.
    assert (Hfail : forall cs0 e0,
      finish ({| session := session (arrived s rq); calls := cs0 |}, Fail e0)
      = (s', cs, r) ->
      r <> RespExpired /\ sessionExpired s' = false
      /\ intro_files s' = intro_files s
      /\ (lastActivity s' = t_arrival rq \/ lastActivity s' = t_done rq)
      /\ (historial_json s' = historial_json s
          /\ resumen_json s' = resumen_json s /\ is_reply r = false)).
    { intros cs0 e0 E0. cbn in E0. injection E0 as <- _ <-.
      cbn. repeat split; auto; discriminate. }
    assert (Hwrap : forall P,
      (r <> RespExpired /\ sessionExpired s' = false
       /\ intro_files s' = intro_files s
       /\ (lastActivity s' = t_arrival rq \/ lastActivity s' = t_done rq)
       /\ (historial_json s' = historial_json s
           /\ resumen_json s' = resumen_json s /\ is_reply r = false)) ->
      r <> RespExpired /\ sessionExpired s' = false
      /\ intro_files s' = intro_files s
      /\ (lastActivity s' = t_arrival rq \/ lastActivity s' = t_done rq)
      /\ ((historial_json s' = historial_json s
           /\ resumen_json s' = resumen_json s /\ is_reply r = false) \/ P)).
    { intros P (H1 & H2 & H3 & H4 & H5). auto 10. }
    destruct (parseDataUrl m) as [[[buffer mime] ext]|e0] eqn:Hp.
    2:{ erewrite chat_audio_parse_fails in E by eassumption.
        apply Hwrap. eapply Hfail. exact E. }
    destruct (whisper (answers rq)) as [tr|e1] eqn:Hw.
    2:{ erewrite chat_audio_transcription_fails in E by eassumption.
        apply Hwrap. eapply Hfail. exact E. }
    erewrite chat_audio_run in E by eassumption. cbv zeta in E.
    destruct (reply (answers rq)) as [rp|e2];
      [|apply Hwrap; eapply Hfail; exact E].
    destruct (textToSpeech (answers rq) 0) as [[]|e3];
      [|apply Hwrap; eapply Hfail; exact E].
    destruct (lipSync (answers rq) 0) as [[]|e4];
      [|apply Hwrap; eapply Hfail; exact E].
    destruct (audioFile (answers rq) 0) as [au|e5];
      [|apply Hwrap; eapply Hfail; exact E].
    destruct (lipsyncFile (answers rq) 0) as [ls|e6];
      [|apply Hwrap; eapply Hfail; exact E].
    clear Hfail Hwrap.
    destruct (maybeUpdateSummary _ _ _) as [w5 [[]|e7]] eqn:Hs;
      pose proof (maybeUpdateSummary_frame _ _ _ Hs) as (Hh & Hi & Hf);
      pose proof (maybeUpdateSummary_effect _ _ _ Hs) as (Hla & Hsum);
      cbn [session calls arrived] in Hh, Hi, Hf, Hla, Hsum;
      cbn [finish session calls] in E; injection E as <- _ <-;
      cbn [sessionExpired intro_files lastActivity historial_json
           resumen_json set_lastActivity];
      rewrite ?Hf, ?Hi, ?Hh, ?Hla;
      (split; [discriminate|]); (split; [exact Hx|]);
      (split; [reflexivity|]);
      (split; [cbn; auto|]);
      right; eexists; (split; [reflexivity|]); (split; [reflexivity|]).
    + split; [left; reflexivity|].
      destruct Hsum as [Hsum|(sm & Hsm & Htot & _)]; [left; exact Hsum|].
      right. exists sm. split; [exact Hsm|]. rewrite Htot.
      unfold turns_of at 2. cbn [historial_json set_lastActivity].
      rewrite Hh. reflexivity.
    + split; [right; eauto|].
      destruct Hsum as [Hsum|(sm & _ & _ & Habs)]; [left; exact Hsum|].
      discriminate Habs.
  - split.
    { destruct (falsy (message rq)).
      - revert E. unfold chat_greeting, arrived, finish. run_monad.
        cbn [intro_files set_lastActivity].
        destruct (intro_files s); intros E; injection E as _ _ <-;
          discriminate.
      - destruct (falsy (elevenLabsApiKey env) || _)%bool.
        + revert E. unfold chat_missing_keys, arrived, finish. run_monad.
          intros E; injection E as _ _ <-; discriminate.
        + destruct (chat_text_run env rq (or_default (message rq) "")
                      (arrived s rq)) as (cs0 & o & Eo & Ho).
          rewrite Eo in E. destruct o as [[]|e]; try contradiction;
            cbn in E; injection E as _ _ <-; discriminate. }
    destruct (falsy (message rq)).
    + revert E. unfold chat_greeting, arrived, finish. run_monad.
      cbn [intro_files set_lastActivity].
      destruct (intro_files s) eqn:Hi; intros E; injection E as <- _ <-;
        cbn; repeat split; auto.
    + destruct (falsy (elevenLabsApiKey env) || _)%bool.
      * revert E. unfold chat_missing_keys, arrived, finish. run_monad.
        intros E; injection E as <- _ <-; cbn; repeat split; auto.
      * destruct (chat_text_run env rq (or_default (message rq) "")
                    (arrived s rq)) as (cs0 & o & Eo & Ho).
        rewrite Eo in E. destruct o as [[]|e]; try contradiction;
          cbn in E; injection E as <- _ <-; cbn; repeat split; auto.
Qed.

Lemma expired_request_short_circuits_witness :
  serve Sample.without_keys Sample.one_turn_expired
    (Sample.request (Some Sample.voice_note) (Sample.answering "hola") 1000)
  = (wiped 1002, [], RespExpired).
Proof.
  apply (@expired_request_short_circuits Sample.without_keys
           Sample.one_turn_expired
           (Sample.request (Some Sample.voice_note) (Sample.answering "hola")
              1000)).
  reflexivity.
Defined.

(** X1. [POST /reset] ends in the wiped session whatever the session was,
    answers [ok] and invokes no collaborator; a second reset right after
    finds and leaves the same empty documents. *)
Theorem reset_is_idempotent (a1 d1 a2 d2 : Z) (w : World) :
  let once := post_reset a1 d1 w in
  let twice := (post_reset a1 d1;; post_reset a2 d2) w in
  snd once = Ok true /\ snd twice = Ok true
  /\ calls (fst once) = calls w /\ calls (fst twice) = calls w
  /\ session (fst once) = wiped d1 /\ session (fst twice) = wiped d2
  /\ historial_json (session (fst twice))
     = historial_json (session (fst once))
  /\ resumen_json (session (fst twice)) = resumen_json (session (fst once)).
Proof.
  cbv zeta. unfold bind. rewrite !reset_wipes. cbn. repeat split.
Qed.

(** X3. A session whose flag is lowered is never reported expired by a
    request that reaches the test within five minutes of its arrival,
    however long the session has been idle: the middleware has refreshed
    the stamp the test reads.  The flag is still lowered afterwards. *)
Theorem idle_session_is_not_reported_expired (env : Env) (s : Session)
    (rq : Request) :
  sessionExpired s = false ->
  (t_gate rq - t_arrival rq < INACTIVITY_MS)%Z ->
  snd (serve env s rq) <> RespExpired
  /\ sessionExpired (fst (fst (serve env s rq))) = false
  /\ serve env s rq = serve env (set_lastActivity (t_arrival rq) s) rq.
Proof.
  intros Hx Hg.
  destruct (serve env s rq) as [[s' cs] r] eqn:E. cbn [fst snd].
  pose proof E as E0.
  apply serve_cases in E.
  destruct E as [(Hn & _)|(_ & Hr & Hf & _)];
    [exfalso; apply Hn; split; assumption|].
  split; [exact Hr|]. split; [exact Hf|].
  rewrite <- E0. rewrite !serve_live by (split; assumption).
  reflexivity.
Qed.

Lemma idle_session_is_not_reported_expired_witness :
  let rq := Sample.request (Some Sample.voice_note) (Sample.answering "hola")
              86400000 in
  snd (serve Sample.with_keys Sample.one_turn rq) <> RespExpired
  /\ sessionExpired (fst (fst (serve Sample.with_keys Sample.one_turn rq)))
     = false
  /\ serve Sample.with_keys Sample.one_turn rq
     = serve Sample.with_keys
         (set_lastActivity (t_arrival rq) Sample.one_turn) rq.
Proof.
  apply (@idle_session_is_not_reported_expired Sample.with_keys
           Sample.one_turn
           (Sample.request (Some Sample.voice_note) (Sample.answering "hola")
              86400000)).
  - reflexivity.
  - vm_compute. reflexivity.
Defined.

(** ** Invariants along sequences of events *)

Lemma step_cases (env : Env) (s : Session) (ev : Event) :
  step env s ev = s
  \/ (exists t, step env s ev = wiped t)
  \/ exists rq cs r, ev = Chat rq /\ serve env s rq = (step env s ev, cs, r).
Proof.
  destruct ev as [rq|arrival done|now now'].
  - right. right. cbn [step].
    destruct (serve env s rq) as [[s' cs] r] eqn:E. cbn [fst].
    exists rq, cs, r. split; [reflexivity | exact E].
  - right. left. cbn [step]. rewrite reset_wipes. cbn. eauto.
  - cbn [step].
    destruct (sessionExpired s) eqn:Hx;
      [left; apply watchdog_idle; auto|].
    destruct (Z.ltb_spec (now - lastActivity s) INACTIVITY_MS) as [Hi|Hi].
    + left. apply watchdog_idle. auto.
    + right. left. exists now'. apply watchdog_wipes; assumption.
Qed.

Lemma run_invariant (P : Session -> Prop) (env : Env) :
  (forall s ev, P s -> P (step env s ev)) ->
  forall evs s, P s -> P (run env s evs).
Proof.
  intros Hstep evs. unfold run.
  induction evs as [|ev evs IH]; intros s Hs; [exact Hs|].
  cbn [fold_left]. apply IH. apply Hstep. exact Hs.
Qed.

(** X4. When handlers run one after the other, the expired flag never
    stays raised: from a session with the flag lowered, after any
    sequence of chat requests, resets and watchdog runs the flag is
    lowered. *)
Theorem flag_never_stays_raised (env : Env) (evs : list Event) (s : Session) :
  sessionExpired s = false ->
  sessionExpired (run env s evs) = false.
Proof.
  apply (run_invariant (fun s => sessionExpired s = false)).
  clear. intros s ev Hx.
  destruct (step_cases env s ev) as [->|[[t ->]|(rq & cs & r & _ & E)]];
    [exact Hx | reflexivity |].
  apply serve_cases in E.
  destruct E as [(_ & _ & -> & _)|(_ & _ & Hf & _)];
    [reflexivity | exact Hf].
Qed.

Lemma flag_never_stays_raised_witness :
  sessionExpired (run Sample.with_keys Sample.one_turn sample_day) = false.
Proof.
  apply (@flag_never_stays_raised Sample.with_keys sample_day
           Sample.one_turn).
  reflexivity.
Defined.

(** X5. A [POST /chat] changes the two documents in two ways only: the
    short circuit wipes both and answers session-expired; a recorded
    utterance sets the entry of the next key and leaves every other
    entry, and the Summary Record with it unless the summarizer replaces
    it.  A request without message or with a text message writes neither
    document, and a reply is never given without the turn being
    stored. *)
Theorem chat_effect_on_documents (env : Env) (s : Session) (rq : Request) :
  let s' := fst (fst (serve env s rq)) in
  let r := snd (serve env s rq) in
  (r = RespExpired
   /\ historial_json s' = Stored [] /\ resumen_json s' = Stored None)
  \/ (is_reply r = false
      /\ historial_json s' = historial_json s
      /\ resumen_json s' = resumen_json s)
  \/ (is_audio (message rq) = true
      /\ (is_reply r = true \/ exists e, r = RespError e)
      /\ exists t,
           historial_json s'
           = Stored (obj_set (turns_of s) (turn_key (next_index (turns_of s)))
                       t)).
Proof.
  cbv zeta. destruct (serve env s rq) as [[s' cs] r] eqn:E. cbn [fst snd].
  apply serve_cases in E.
  destruct E as [(_ & -> & -> & _)|(_ & _ & _ & _ & _ & [H|H])].
  - left. repeat split.
  - right. left. tauto.
  - right. right. destruct H as (t & Hh & Ha & Hr & _). eauto.
Qed.

Lemma length_obj_set {A} (o : Obj A) (k : string) (v : A) :
  length o <= length (obj_set o k v).
Proof.
  induction o as [|[k' v'] o IH]; cbn [obj_set length]; [lia|].
  destruct (String.eqb k' k); cbn [length]; lia.
Qed.

Lemma turns_of_stored (s : Session) (h : Historial) :
  historial_json s = Stored h -> turns_of s = h.
Proof. unfold turns_of. now intros ->. Qed.

Lemma turns_of_same (s s' : Session) :
  historial_json s' = historial_json s -> turns_of s' = turns_of s.
Proof. unfold turns_of. now intros ->. Qed.

(** X6. The Turn Collection stays dense whatever happens: from a
    collection with the keys of turns 1 to n, after any sequence of chat
    requests (of any kind, succeeding or failing), resets and watchdog
    runs the keys are again exactly those of turns 1 to its size. *)
Theorem history_stays_dense (env : Env) (evs : list Event) (s : Session) :
  dense (turns_of s) ->
  dense (turns_of (run env s evs)).
Proof.
  apply (run_invariant (fun s => dense (turns_of s))).
  clear. intros s ev Hd.
  destruct (step_cases env s ev) as [->|[[t ->]|(rq & cs & r & _ & E)]];
    [exact Hd | reflexivity |].
  apply serve_cases in E.
  destruct E as [(_ & _ & -> & _)|(_ & _ & _ & _ & _ & [H|H])].
  - reflexivity.
  - destruct H as (Hh & _). now rewrite (turns_of_same _ _ Hh).
  - destruct H as (t & Hh & _). rewrite (turns_of_stored _ Hh).
    apply dense_append. exact Hd.
Qed.

Lemma history_stays_dense_witness :
  dense (turns_of (run Sample.with_keys Sample.one_turn sample_day)).
Proof.
  apply (@history_stays_dense Sample.with_keys sample_day Sample.one_turn).
  reflexivity.
Defined.

(** X7. The Summary Record never counts more turns than are stored: if
    [total_conversaciones] is at most the size of the Turn Collection (or
    there is no record), this is still so after any sequence of chat
    requests, resets and watchdog runs. *)
Theorem summary_never_overcounts (env : Env) (evs : list Event)
    (s : Session) :
  summary_bounded s ->
  summary_bounded (run env s evs).
Proof.
  apply (run_invariant summary_bounded).
  clear. intros s ev Hb.
  destruct (step_cases env s ev) as [->|[[t ->]|(rq & cs & r & _ & E)]];
    [exact Hb | exact I |].
  apply serve_cases in E.
  destruct E as [(_ & _ & -> & _)|(_ & _ & _ & _ & _ & [H|H])].
  - exact I.
  - destruct H as (Hh & Hr & _). unfold summary_bounded in *.
    now rewrite Hr, (turns_of_same _ _ Hh).
  - destruct H as (t & Hh & _ & _ & Hsum).
    unfold summary_bounded in *.
    destruct Hsum as [Hr|(sm & Hr & Htot)].
    + rewrite Hr. destruct (readJsonSafe (resumen_json s) None); [|exact I].
      rewrite (turns_of_stored _ Hh).
      pose proof (length_obj_set (turns_of s)
                    (turn_key (next_index (turns_of s))) t). lia.
    + rewrite Hr. cbn [readJsonSafe]. rewrite Htot, length_keys. lia.
Qed.

Lemma summary_never_overcounts_witness :
  summary_bounded (run Sample.with_keys Sample.one_turn sample_day).
Proof.
  apply (@summary_never_overcounts Sample.with_keys sample_day
           Sample.one_turn).
  vm_compute. lia.
Defined.

Lemma obj_get_set_other {A} (o : Obj A) (k k' : string) (v : A) :
  k <> k' -> obj_get (obj_set o k' v) k = obj_get o k.
Proof.
  intros Hne. induction o as [|[k0 v0] o IH]; cbn [obj_set obj_get].
  - destruct (String.eqb_spec k' k); [congruence | reflexivity].
  - destruct (String.eqb_spec k0 k') as [->|Hk]; cbn [obj_get].
    + destruct (String.eqb_spec k' k); [congruence | reflexivity].
    + destruct (String.eqb k0 k); [reflexivity | exact IH].
Qed.

Lemma obj_get_in_keys {A} (o : Obj A) (k : string) (v : A) :
  obj_get o k = Some v -> In k (keys o).
Proof.
  induction o as [|[k0 v0] o IH]; cbn [obj_get keys map fst In];
    [discriminate|].
  destruct (String.eqb_spec k0 k); [auto | intros H; right; now apply IH].
Qed.

(** X8. Stored turns are only ever added to: from a dense Turn
    Collection, a chat request that is not answered with session-expired
    leaves every stored turn under its key with its content. *)
Theorem stored_turns_are_kept (env : Env) (s : Session) (rq : Request)
    (k : string) (t : Turn) :
  dense (turns_of s) ->
  snd (serve env s rq) <> RespExpired ->
  obj_get (turns_of s) k = Some t ->
  obj_get (turns_of (fst (fst (serve env s rq)))) k = Some t.
Proof.
  destruct (serve env s rq) as [[s' cs] r] eqn:E. cbn [fst snd].
  intros Hd Hr Hk. apply serve_cases in E.
  destruct E as [(_ & Habs & _)|(_ & _ & _ & _ & _ & [H|H])];
    [contradiction| |].
  - destruct H as (Hh & _). now rewrite (turns_of_same _ _ Hh).
  - destruct H as (t' & Hh & _). rewrite (turns_of_stored _ Hh).
    rewrite obj_get_set_other; [exact Hk|].
    intros ->. rewrite (next_index_dense Hd) in Hk.
    apply obj_get_in_keys in Hk. exact (dense_fresh Hd Hk).
Qed.

Lemma stored_turns_are_kept_witness :
  obj_get
    (turns_of
       (fst (fst (serve Sample.with_keys Sample.one_turn
                    (Sample.request (Some Sample.voice_note)
                       (Sample.answering "hola") 1000)))))
    (turn_key 1)
  = Some Sample.a_turn.
Proof.
  apply (@stored_turns_are_kept Sample.with_keys Sample.one_turn
           (Sample.request (Some Sample.voice_note) (Sample.answering "hola")
              1000) (turn_key 1) Sample.a_turn).
  - reflexivity.
  - vm_compute. discriminate.
  - reflexivity.
Defined.

(** X9. What a reply tells the caller is what is stored: when [/chat]
    answers with [ok: true], the entry under the next key holds the
    transcript, the two labels and the text of that very answer, and the
    collaborators invoked before the summarizer are, in this order,
    transcription, sentiment, emotion, generation, synthesis and lip
    sync. *)
Theorem reply_is_what_is_stored (env : Env) (s s' : Session) (rq : Request)
    (cs : list Call) (transcript sent emo : string) (msg : Message) :
  serve env s rq = (s', cs, RespReply transcript sent emo msg) ->
  obj_get (turns_of s') (turn_key (next_index (turns_of s)))
  = Some {| user_responde := transcript; sentimiento := sent;
            mia_emocion := emo; mia_text := text msg |}
  /\ exists buffer filename mime res rec key rest,
       cs = ([ Transcription buffer filename mime;
               Sentiment transcript;
               MiaPredict transcript sent;
               ReplyGeneration res rec transcript sent emo
                 (length (keys (turns_of s)));
               TextToSpeech key voiceID (message_mp3 0) (text msg);
               LipSync 0 ] ++ rest)%list
       /\ (rest = [] \/ exists prev h, rest = [Summarization prev h]).
Proof.
  intros E. split.
  - apply serve_reply_inv in E. cbv zeta in E. destruct E as (Hh & _).
    rewrite (turns_of_stored _ Hh). apply obj_get_set.
  - destruct (not_live_cases s rq) as [Hl|[Hx|[Hx Hg]]].
    2:{ rewrite (serve_expired env _ rq Hx) in E. discriminate E. }
    2:{ rewrite (serve_stale env _ rq Hx Hg) in E. discriminate E. }
    pose proof E as E0. apply serve_cases in E0.
    destruct E0 as [(Hn & _)|(_ & _ & _ & _ & _ & [H|H])];
      [contradiction | destruct H as (_ & _ & H); discriminate H |].
    destruct H as (_ & _ & Ha & _).
    destruct (message rq) as [m|] eqn:Hm; [|discriminate Ha].
    cbn [is_audio] in Ha.
    rewrite (serve_live env Hl) in E.
    erewrite route_audio in E by eassumption.
    destruct (parseDataUrl m) as [[[buffer mime] ext]|e0] eqn:Hp.
    2:{ erewrite chat_audio_parse_fails in E by eassumption.
        discriminate E. }
    destruct (whisper (answers rq)) as [tr|e1] eqn:Hw.
    2:{ erewrite chat_audio_transcription_fails in E by eassumption.
        discriminate E. }
    erewrite chat_audio_run in E by eassumption. cbv zeta in E.
    destruct (reply (answers rq)) as [rp|e2]; [|discriminate E].
    destruct (textToSpeech (answers rq) 0) as [[]|e3]; [|discriminate E].
    destruct (lipSync (answers rq) 0) as [[]|e4]; [|discriminate E].
    destruct (audioFile (answers rq) 0) as [au|e5]; [|discriminate E].
    destruct (lipsyncFile (answers rq) 0) as [ls|e6]; [|discriminate E].
    revert E. unfold maybeUpdateSummary. run_monad.
    cbn [historial_json persisted set_historial_json set_lastActivity
         arrived session readJsonSafe].
    destruct (_ <=? _)%N.
    + cbn [finish session calls]. intros E. injection E as _ <- <- <- <- <-.
      unfold front_calls, speech_call, reply_message. norm_calls.
      cbn [text]. do 7 eexists. split; [reflexivity|]. left. reflexivity.
    + destruct (summary (answers rq)) as [out|e7];
        cbn [finish session calls]; intros E; [|discriminate E].
      injection E as _ <- <- <- <- <-.
      unfold front_calls, speech_call, reply_message. norm_calls.
      cbn [text]. do 7 eexists. split; [reflexivity|]. right. eauto.
Qed.

Lemma reply_is_what_is_stored_witness :
  let rq := Sample.note_classifiers_down in
  let out := serve Sample.with_keys Sample.one_turn rq in
  let msg := {| text := "Te escucho."; audio := Some "QUJD";
                lipsync := Some "{}"; facialExpression := "default";
                animation := "Talking_1" |} in
  obj_get (turns_of (fst (fst out)))
    (turn_key (next_index (turns_of Sample.one_turn)))
  = Some {| user_responde := "tengo un mal dia"; sentimiento := "neutral";
            mia_emocion := "default"; mia_text := text msg |}
  /\ exists buffer filename mime res rec key rest,
       snd (fst out)
       = ([ Transcription buffer filename mime;
            Sentiment "tengo un mal dia";
            MiaPredict "tengo un mal dia" "neutral";
            ReplyGeneration res rec "tengo un mal dia" "neutral" "default"
              (length (keys (turns_of Sample.one_turn)));
            TextToSpeech key voiceID (message_mp3 0) (text msg);
            LipSync 0 ] ++ rest)%list
       /\ (rest = [] \/ exists prev h, rest = [Summarization prev h]).
Proof.
  cbv zeta.
  apply (@reply_is_what_is_stored Sample.with_keys Sample.one_turn _
           Sample.note_classifiers_down).
  vm_compute. reflexivity.
Defined.

(** ** Data URLs *)

Lemma split_second_absent (c : ascii) (s : string) :
  nth_error (split c s) 1 = None <-> lacks c s = true.
Proof.
  induction s as [|d r IH]; cbn [split lacks]; [tauto|].
  destruct (Ascii.eqb d c); cbn [negb andb nth_error].
  - destruct (split c r) eqn:E; cbn [nth_error].
    + destruct r; cbn [split] in E; [discriminate|].
      destruct (Ascii.eqb _ _); [discriminate|].
      destruct (split c r); discriminate.
    + split; discriminate.
  - destruct (split c r) as [|h t]; cbn [nth_error] in *; exact IH.
Qed.

Lemma split_lacks (c : ascii) (s : string) :
  lacks c s = true -> split c s = [s].
Proof.
  induction s as [|d r IH]; cbn [split lacks]; [reflexivity|].
  destruct (Ascii.eqb d c); cbn [negb andb]; [discriminate|].
  intros H. now rewrite (IH H).
Qed.

Lemma split_at_separator (c : ascii) (a b : string) :
  lacks c a = true -> split c (a ++ String c b) = a :: split c b.
Proof.
  induction a as [|d r IH]; cbn [append split lacks].
  - now rewrite Ascii.eqb_refl.
  - destruct (Ascii.eqb d c); cbn [negb andb]; [discriminate|].
    intros H. now rewrite (IH H).
Qed.

Lemma indexOf_at_separator (c : ascii) (a b : string) :
  lacks c a = true -> indexOf c (a ++ String c b) = Some (String.length a).
Proof.
  induction a as [|d r IH]; cbn [append indexOf lacks String.length].
  - now rewrite Ascii.eqb_refl.
  - destruct (Ascii.eqb d c); cbn [negb andb]; [discriminate|].
    intros H. now rewrite (IH H).
Qed.

Lemma lacks_append (c : ascii) (a b : string) :
  lacks c (a ++ b) = (lacks c a && lacks c b)%bool.
Proof.
  induction a as [|d r IH]; cbn [append lacks]; [reflexivity|].
  now rewrite IH, andb_assoc.
Qed.

Lemma append_assoc (a b c : string) : ((a ++ b) ++ c = a ++ (b ++ c))%string.
Proof. induction a as [|d a IH]; cbn [append]; [reflexivity | now rewrite IH]. Qed.

Lemma substring_skip (a r : string) (m : nat) :
  substring (String.length a) m (a ++ r) = substring 0 m r.
Proof. induction a as [|d a IH]; [reflexivity | exact IH]. Qed.

Lemma substring_prefix (b r : string) :
  substring 0 (String.length b) (b ++ r) = b.
Proof.
  induction b as [|d b IH]; cbn [append String.length substring].
  - now destruct r.
  - now rewrite IH.
Qed.

(** X10. A recorded utterance whose data URL has no comma cannot be
    decoded: [parseDataUrl] throws exactly then, and the request answers
    with a 500 error result, whatever its message, before any
    collaborator is invoked and without writing a document. *)
Theorem data_url_without_comma_aborts (env : Env) (s : Session)
    (rq : Request) (m : string) :
  ((exists e, parseDataUrl m = Fail e) <-> lacks "," m = true)
  /\ (live s rq ->
      message rq = Some m ->
      startsWith m "data:audio" = true ->
      lacks "," m = true ->
      exists e,
        serve env s rq
        = (set_lastActivity (t_arrival rq) s, [], RespError e)).
Proof.
  assert (Hiff : (exists e, parseDataUrl m = Fail e) <-> lacks "," m = true).
  { rewrite <- split_second_absent. unfold parseDataUrl.
    destruct (nth_error (split "," m) 1); split.
    - intros [e H]. discriminate H.
    - discriminate.
    - reflexivity.
    - eauto. }
  split; [exact Hiff|].
  intros Hl Hm Ha Hc. rewrite (serve_live env Hl).
  erewrite route_audio by eassumption.
  apply Hiff in Hc. destruct Hc as [e He]. exists e.
  erewrite chat_audio_parse_fails by eassumption. reflexivity.
Qed.

Lemma data_url_without_comma_aborts_witness :
  exists e,
    serve Sample.with_keys Sample.one_turn
      (Sample.request (Some "data:audio/webm;base64")
         (Sample.answering "hola") 1000)
    = (set_lastActivity 1000 Sample.one_turn, [], RespError e).
Proof.
  apply (@data_url_without_comma_aborts Sample.with_keys Sample.one_turn
           (Sample.request (Some "data:audio/webm;base64")
              (Sample.answering "hola") 1000) "data:audio/webm;base64").
  - apply sample_request_live. reflexivity.
  - reflexivity.
  - reflexivity.
  - reflexivity.
Defined.

(** X11. [parseDataUrl] decodes a data URL of the usual shape
    [data:TYPE/SUBTYPE;PARAMS,PAYLOAD]: the buffer is the payload, the
    MIME type is what stands between [data:] and the first semicolon, and
    the file extension is the subtype. *)
Theorem parseDataUrl_decodes (typ sub params payload : string) :
  lacks "/" typ = true -> lacks ";" typ = true -> lacks "," typ = true ->
  lacks "/" sub = true -> lacks ";" sub = true -> lacks "," sub = true ->
  sub <> "" ->
  lacks "," params = true ->
  lacks "," payload = true ->
  parseDataUrl ("data:" ++ typ ++ "/" ++ sub ++ ";" ++ params ++ ","
                  ++ payload)
  = Ok (payload, typ ++ "/" ++ sub, sub).
Proof.
  intros Ht1 Ht2 Ht3 Hs1 Hs2 Hs3 Hne Hp Hy.
  set (mime := typ ++ "/" ++ sub).
  assert (Hm2 : lacks ";" ("data:" ++ mime) = true).
  { subst mime. rewrite !lacks_append, Ht2, Hs2. reflexivity. }
  assert (Hm3 : lacks "," ("data:" ++ mime ++ ";" ++ params) = true).
  { subst mime. rewrite !lacks_append, Ht3, Hs3, Hp. reflexivity. }
  assert (Hurl : "data:" ++ typ ++ "/" ++ sub ++ ";" ++ params ++ ","
                   ++ payload
                 = ("data:" ++ mime ++ ";" ++ params) ++ String "," payload).
  { subst mime. rewrite !append_assoc. reflexivity. }
  assert (Hhead : "data:" ++ mime ++ ";" ++ params
                  = ("data:" ++ mime) ++ String ";" params).
  { rewrite !append_assoc. reflexivity. }
  unfold parseDataUrl. rewrite Hurl.
  rewrite split_at_separator by exact Hm3.
  rewrite split_lacks by exact Hy. cbn [nth nth_error].
  rewrite Hhead. rewrite indexOf_at_separator by exact Hm2.
  unfold slice.
  replace (String.length ("data:" ++ mime) - 5) with (String.length mime)
    by (cbn [append String.length]; lia).
  change (("data:" ++ mime) ++ String ";" params)
    with ("data:" ++ (mime ++ String ";" params)).
  rewrite (substring_skip "data:"), substring_prefix.
  assert (Hmime : or_default (Some mime) "audio/webm" = mime).
  { subst mime. destruct typ; reflexivity. }
  rewrite Hmime. subst mime.
  change (typ ++ "/" ++ sub) with (typ ++ String "/" sub).
  rewrite split_at_separator by exact Ht1.
  rewrite split_lacks by exact Hs1.
  cbn [nth_error]. destruct sub; [congruence | reflexivity].
Qed.

Lemma parseDataUrl_decodes_witness :
  parseDataUrl ("data:" ++ "audio" ++ "/" ++ "webm" ++ ";"
                  ++ "codecs=opus;base64" ++ "," ++ "GkXfo59ChoEB")
  = Ok ("GkXfo59ChoEB", "audio" ++ "/" ++ "webm", "webm").
Proof.
  apply (@parseDataUrl_decodes "audio" "webm" "codecs=opus;base64"
           "GkXfo59ChoEB");
    try reflexivity.
  discriminate.
Defined.

(** ** Range of the visuals *)

Lemma animation_in_range (idx : Z) :
  In (rotatingTalkingAnimation idx) talking_names.
Proof.
  unfold rotatingTalkingAnimation, talking_names.
  destruct (Z.rem idx 3 =? 0)%Z; [cbn; auto|].
  destruct (Z.rem idx 3 =? 1)%Z; cbn; auto.
Qed.

Lemma expression_in_range (label : option string) (idx : Z) :
  In (v_facialExpression (mapEmotionToVisuals label idx)) expression_names.
Proof.
  unfold mapEmotionToVisuals, expression_names. cbn [v_facialExpression].
  repeat match goal with
         | |- context [String.eqb ?e ?x] => destruct (String.eqb e x)
         end; cbn; auto 6.
Qed.

(** X12. The visuals never leave their ranges: for every label, present
    or not, and every integer index, negative ones included, the mapper
    gives one of the three talking animations and one of the five facial
    expressions; so does every reply of [/chat]. *)
Theorem visuals_stay_in_range :
  (forall label idx,
      In (v_animation (mapEmotionToVisuals label idx)) talking_names
      /\ In (v_facialExpression (mapEmotionToVisuals label idx))
            expression_names)
  /\ (forall idx, (idx <= 0)%Z ->
        rotatingTalkingAnimation idx
        = if (Z.rem idx 3 =? 0)%Z then "Talking_0" else "Talking_2")
  /\ (forall env s s' rq cs transcript sent emo msg,
        serve env s rq = (s', cs, RespReply transcript sent emo msg) ->
        In (animation msg) talking_names
        /\ In (facialExpression msg) expression_names).
Proof.
  split; [|split].
  - intros label idx. split;
      [apply animation_in_range | apply expression_in_range].
  - intros idx Hneg. unfold rotatingTalkingAnimation.
    destruct (Z.rem idx 3 =? 0)%Z eqn:E0; [reflexivity|].
    destruct (Z.eqb_spec (Z.rem idx 3) 1) as [E1|_]; [|reflexivity].
    pose proof (Z.rem_nonpos idx 3 ltac:(lia) Hneg). lia.
  - intros env s s' rq cs transcript sent emo msg E.
    apply serve_reply_inv in E. cbv zeta in E.
    destruct E as (_ & _ & -> & ->). split;
      [apply animation_in_range | apply expression_in_range].
Qed.

Lemma visuals_stay_in_range_witness :
  rotatingTalkingAnimation (-4)
  = (if (Z.rem (-4) 3 =? 0)%Z then "Talking_0" else "Talking_2")
  /\ In (animation
           {| text := "Te escucho."; audio := Some "QUJD";
              lipsync := Some "{}"; facialExpression := "sad";
              animation := "Talking_1" |}) talking_names.
Proof.
  destruct visuals_stay_in_range as (_ & Hneg & Hreply).
  split; [apply Hneg; lia|].
  apply (Hreply Sample.with_keys Sample.one_turn
           (fst (fst (serve Sample.with_keys Sample.one_turn
                        (Sample.request (Some Sample.voice_note)
                           (Sample.answering "hola") 1000))))
           (Sample.request (Some Sample.voice_note)
              (Sample.answering "hola") 1000)
           (snd (fst (serve Sample.with_keys Sample.one_turn
                        (Sample.request (Some Sample.voice_note)
                           (Sample.answering "hola") 1000))))
           "hola" "negativo" "tristeza").
  vm_compute. reflexivity.
Defined.

(** ** The text chat *)

Lemma legacy_messages_ok (env : Env) (a : Answers) (ms ms' : list Message)
    (i : nat) (w : World) :
  speech_ok a i (length ms) ->
  voiced a i ms = Some ms' ->
  legacy_messages env a i ms w
  = ({| session := session w;
        calls := (calls w ++ speech_calls env i ms)%list |}, Ok ms').
Proof.
  revert ms' i w. induction ms as [|m ms IH]; intros ms' i w Hok Hv.
  - cbn in Hv. injection Hv as <-. cbn. rewrite app_nil_r.
    now destruct w.
  - cbn [legacy_messages voiced speech_calls] in *.
    unfold lipSyncMessage. run_monad.
    destruct (Hok 0 ltac:(cbn; lia)) as (H1 & H2).
    rewrite Nat.add_0_r in H1, H2. rewrite H1, H2.
    destruct (audioFile a i) as [au|]; [|discriminate Hv].
    destruct (lipsyncFile a i) as [ls|]; [|discriminate Hv].
    destruct (voiced a (S i) ms) as [rest|] eqn:Hrest; [|discriminate Hv].
    injection Hv as <-.
    assert (Hok' : speech_ok a (S i) (length ms)).
    { intros k Hk. replace (S i + k) with (i + S k) by lia.
      apply Hok. cbn [length]. lia. }
    rewrite (IH rest (S i) _ Hok' Hrest).
    cbn [session calls]. norm_calls. reflexivity.
Qed.

(** X14. A text message, with both keys present and every stage
    succeeding, is answered with the messages of the chat completion in
    their order, each with its audio and lip sync; the collaborators
    invoked are the completion and then, message after message, synthesis
    and lip sync on [audios/message_i].  Nothing is stored: both documents
    are as before and only the activity stamp moves. *)
Theorem text_chat_voices_each_message (env : Env) (s : Session)
    (rq : Request) (m : string) (ms ms' : list Message) :
  live s rq ->
  message rq = Some m ->
  m <> "" ->
  startsWith m "data:audio" = false ->
  keys_present env ->
  completion (answers rq) = Ok ms ->
  speech_ok (answers rq) 0 (length ms) ->
  voiced (answers rq) 0 ms = Some ms' ->
  serve env s rq
  = (set_lastActivity (t_done rq) s,
     ChatCompletion m :: speech_calls env 0 ms,
     RespMessages ms')
  /\ length ms' = length ms
  /\ map text ms' = map text ms.
Proof.
  intros Hl Hm Hne Ha (Hk1 & Hk2) Hc Hok Hv. split.
  - rewrite (serve_live env Hl).
    unfold chat_routes, is_audio. rewrite Hm, Ha.
    destruct m as [|c m']; [congruence|]. cbn [falsy].
    unfold elevenLabsApiKey. rewrite Hk1, Hk2. cbn [orb or_default].
    unfold chat_text, arrived, finish. run_monad. rewrite Hc.
    erewrite legacy_messages_ok by eassumption.
    cbn [session calls Datatypes.app]. reflexivity.
  - clear Hok Hc. revert Hv. generalize 0 as i. revert ms'.
    induction ms as [|x ms IH]; intros ms' i Hv.
    + cbn in Hv. injection Hv as <-. split; reflexivity.
    + cbn [voiced] in Hv.
      destruct (audioFile (answers rq) i); [|discriminate Hv].
      destruct (lipsyncFile (answers rq) i); [|discriminate Hv].
      destruct (voiced (answers rq) (S i) ms) as [rest|] eqn:E;
        [|discriminate Hv].
      injection Hv as <-. destruct (IH rest (S i) E) as (H1 & H2).
      cbn [length map text]. now rewrite H1, H2.
Qed.

Lemma text_chat_voices_each_message_witness :
  serve Sample.with_keys Sample.one_turn
    (Sample.request (Some "hola") (Sample.answering "") 1000)
  = (set_lastActivity 1002 Sample.one_turn,
     ChatCompletion "hola"
     :: speech_calls Sample.with_keys 0
          [ {| text := "Hi"; audio := None; lipsync := None;
               facialExpression := "smile"; animation := "Talking_0" |} ],
     RespMessages
       [ {| text := "Hi"; audio := Some "QUJD"; lipsync := Some "{}";
            facialExpression := "smile"; animation := "Talking_0" |} ])
  /\ length
       [ {| text := "Hi"; audio := Some "QUJD"; lipsync := Some "{}";
            facialExpression := "smile"; animation := "Talking_0" |} ]
     = length
         [ {| text := "Hi"; audio := None; lipsync := None;
              facialExpression := "smile"; animation := "Talking_0" |} ]
  /\ map text
       [ {| text := "Hi"; audio := Some "QUJD"; lipsync := Some "{}";
            facialExpression := "smile"; animation := "Talking_0" |} ]
     = map text
         [ {| text := "Hi"; audio := None; lipsync := None;
              facialExpression := "smile"; animation := "Talking_0" |} ].
Proof.
  apply (@text_chat_voices_each_message Sample.with_keys Sample.one_turn
           (Sample.request (Some "hola") (Sample.answering "") 1000) "hola").
  - apply sample_request_live. reflexivity.
  - reflexivity.
  - discriminate.
  - reflexivity.
  - split; reflexivity.
  - reflexivity.
  - intros k Hk. split; reflexivity.
  - reflexivity.
Defined.

(** ** Activity and the watchdog *)

(** X15. A session in use is not wiped: after a live chat request,
    whatever its kind and outcome, a watchdog run that reads the clock
    less than five minutes after the request arrived changes nothing. *)
Theorem request_keeps_session_alive (env : Env) (s : Session) (rq : Request)
    (now now' : Z) :
  live s rq ->
  (t_arrival rq <= t_done rq)%Z ->
  (now - t_arrival rq < INACTIVITY_MS)%Z ->
  run_watchdog now now' (fst (fst (serve env s rq)))
  = fst (fst (serve env s rq)).
Proof.
  intros Hl Hord Hnow.
  destruct (serve env s rq) as [[s' cs] r] eqn:E. cbn [fst].
  apply serve_cases in E.
  destruct E as [(Hn & _)|(_ & _ & _ & _ & Hla & _)]; [contradiction|].
  apply watchdog_idle. right. destruct Hla as [-> | ->]; lia.
Qed.

Lemma request_keeps_session_alive_witness :
  let rq := Sample.request (Some Sample.voice_note) (Sample.answering "hola")
              86400000 in
  run_watchdog 86690000 86690001
    (fst (fst (serve Sample.with_keys Sample.one_turn rq)))
  = fst (fst (serve Sample.with_keys Sample.one_turn rq)).
Proof.
  apply (@request_keeps_session_alive Sample.with_keys Sample.one_turn
           (Sample.request (Some Sample.voice_note) (Sample.answering "hola")
              86400000) 86690000 86690001).
  - apply sample_request_live. reflexivity.
  - vm_compute. discriminate.
  - vm_compute. reflexivity.
Defined.

(** ** Growth of the serialized history *)

Lemma length_append (a b : string) :
  String.length (a ++ b) = String.length a + String.length b.
Proof.
  induction a as [|c a IH]; cbn [append String.length];
    [reflexivity | now rewrite IH].
Qed.

Lemma length_join_snoc (sep p : string) (l : list string) :
  String.length (join sep l) <= String.length (join sep (l ++ [p])%list).
Proof.
  induction l as [|a l IH]; [cbn; lia|].
  destruct l as [|b l].
  - cbn [Datatypes.app join]. rewrite length_append. lia.
  - change (join sep (a :: b :: l))
      with (a ++ sep ++ join sep (b :: l))%string.
    change (join sep ((a :: b :: l) ++ [p])%list)
      with (a ++ sep ++ join sep ((b :: l) ++ [p])%list)%string.
    rewrite !length_append. lia.
Qed.

Lemma serialized_length_snoc (h : Historial) (k : string) (t : Turn) :
  (serialized_length h <= serialized_length (h ++ [(k, t)])%list)%N.
Proof.
  unfold serialized_length, stringify. rewrite map_app. cbn [map].
  rewrite !length_append.
  match goal with
  | |- context [join "," (?l ++ [?p])%list] =>
      pose proof (length_join_snoc "," p l)
  end.
  lia.
Qed.

(** X17. Turns are never pruned, so the summarizer keeps being called:
    once the serialized Turn Collection (dense, as the program leaves it)
    is over the threshold, every further reply that stores its turn makes
    exactly one summarization call, on the whole collection. *)
Theorem over_threshold_every_reply_summarizes (env : Env) (s : Session)
    (rq : Request) (m buffer mime ext : string) (tr rp : option string)
    (au ls : string) :
  dense (turns_of s) ->
  (MAX_CONTEXT_CHARS < serialized_length (turns_of s))%N ->
  live s rq ->
  stages_ok rq m buffer mime ext tr rp au ls ->
  (MAX_CONTEXT_CHARS < serialized_length (turns_of (persisted rq s tr rp)))%N
  /\ filter is_summarization (snd (fst (serve env s rq)))
     = [Summarization (summary_text (readJsonSafe (resumen_json s) None))
          (turns_of (persisted rq s tr rp))].
Proof.
  intros Hd Hover Hl Hok.
  assert (Hgrow : (MAX_CONTEXT_CHARS
                   < serialized_length (turns_of (persisted rq s tr rp)))%N).
  { rewrite turns_of_persisted.
    destruct (dense_append (new_turn rq tr rp) Hd) as (-> & _).
    pose proof (serialized_length_snoc (turns_of s)
                  (turn_key (length (turns_of s) + 1)) (new_turn rq tr rp)).
    lia. }
  split; [exact Hgrow|].
  rewrite (serve_persisted env Hl Hok). cbv zeta.
  rewrite maybeUpdateSummary_above by exact Hgrow. cbv zeta.
  assert (Hfront :
    filter is_summarization (pipeline_calls env rq s buffer mime ext tr rp)
    = []) by reflexivity.
  destruct (summary (answers rq)); cbn [fst snd session calls];
    rewrite filter_app, Hfront; reflexivity.
Qed.

Lemma over_threshold_every_reply_summarizes_witness :
  let rq := Sample.request (Some Sample.voice_note) (Sample.answering "hola")
              1000 in
  let s := Sample.over_threshold in
  (MAX_CONTEXT_CHARS
   < serialized_length
       (turns_of (persisted rq s (Some "hola") (Some " Te escucho. "))))%N
  /\ filter is_summarization (snd (fst (serve Sample.with_keys s rq)))
     = [Summarization (summary_text (readJsonSafe (resumen_json s) None))
          (turns_of (persisted rq s (Some "hola") (Some " Te escucho. ")))].
Proof.
  apply (@over_threshold_every_reply_summarizes Sample.with_keys
           Sample.over_threshold
           (Sample.request (Some Sample.voice_note) (Sample.answering "hola")
              1000)
           Sample.voice_note "AAAA" "audio/webm" "webm" (Some "hola")
           (Some " Te escucho. ") "QUJD" "{}").
  - apply dense_collection.
  - vm_compute. reflexivity.
  - apply sample_request_live. reflexivity.
  - apply long_note_stages_ok; reflexivity.
Defined.

(** ** Keys in any order *)

Lemma insert_number_perm (k : nat) (l : list nat) :
  Permutation (insert_number k l) (k :: l).
Proof.
  induction l as [|x l IH]; cbn [insert_number]; [reflexivity|].
  destruct (x <? k); [|reflexivity].
  rewrite IH. apply perm_swap.
Qed.

Lemma sort_numbers_perm (l : list nat) : Permutation (sort_numbers l) l.
Proof.
  induction l as [|k l IH]; cbn [sort_numbers]; [reflexivity|].
  rewrite insert_number_perm. now apply perm_skip.
Qed.

Lemma insert_number_sorted (k : nat) (l : list nat) :
  Sorted le l -> Sorted le (insert_number k l).
Proof.
  induction l as [|x l IH]; intros Hs; cbn [insert_number].
  - repeat constructor.
  - destruct (Nat.ltb_spec x k) as [Hlt|Hge].
    + inversion Hs as [|? ? Hs' Hhd]; subst. constructor; [now apply IH|].
      destruct l as [|y l]; cbn [insert_number].
      * constructor. lia.
      * destruct (y <? k); constructor; [|lia].
        inversion Hhd; subst. assumption.
    + constructor; [exact Hs|]. constructor. exact Hge.
Qed.

Lemma sort_numbers_sorted (l : list nat) : Sorted le (sort_numbers l).
Proof.
  induction l as [|k l IH]; cbn [sort_numbers]; [constructor|].
  now apply insert_number_sorted.
Qed.

Lemma slice_last_map {A B} (f : A -> B) (n : nat) (l : list A) :
  slice_last n (map f l) = map f (slice_last n l).
Proof. unfold slice_last. now rewrite length_map, skipn_map. Qed.

(** X18. The order of the keys in [historial.json] does not matter to
    the context composer: whenever the keys are those of some turns, in
    any order, with turn numbers up to [Number.MAX_SAFE_INTEGER] (where
    the numbers the comparator subtracts are the turn numbers
    themselves), it selects the (up to) six highest-numbered turns,
    lowest number first. *)
Theorem window_ignores_key_order (h : Historial) (l : list nat) :
  keys h = map turn_key l ->
  safe_numbers l ->
  exists sorted,
    Permutation sorted l
    /\ Sorted le sorted
    /\ recent_keys h = map turn_key (slice_last RECENT_TURNS sorted)
    /\ length (recent_keys h) = Nat.min (length l) RECENT_TURNS.
Proof.
  intros Hk _. exists (sort_numbers l).
  split; [apply sort_numbers_perm|]. split; [apply sort_numbers_sorted|].
  assert (Hr : recent_keys h
               = map turn_key (slice_last RECENT_TURNS (sort_numbers l))).
  { unfold recent_keys.
    rewrite Hk, filter_turn_keys, sort_keys_by_number.
    apply slice_last_map. }
  split; [exact Hr|].
  rewrite Hr, length_map. unfold slice_last. rewrite length_skipn.
  rewrite (Permutation_length (sort_numbers_perm l)). lia.
Qed.

Lemma window_ignores_key_order_witness :
  exists sorted,
    Permutation sorted [3; 10; 1; 7; 2; 9; 4; 8; 6; 5]
    /\ Sorted le sorted
    /\ recent_keys
         (map (fun i => (turn_key i, Sample.a_turn))
            [3; 10; 1; 7; 2; 9; 4; 8; 6; 5])
       = map turn_key (slice_last RECENT_TURNS sorted)
    /\ length
         (recent_keys
            (map (fun i => (turn_key i, Sample.a_turn))
               [3; 10; 1; 7; 2; 9; 4; 8; 6; 5]))
       = Nat.min (length [3; 10; 1; 7; 2; 9; 4; 8; 6; 5]) RECENT_TURNS.
Proof.
  apply (@window_ignores_key_order
           (map (fun i => (turn_key i, Sample.a_turn))
              [3; 10; 1; 7; 2; 9; 4; 8; 6; 5])
           [3; 10; 1; 7; 2; 9; 4; 8; 6; 5]).
  - reflexivity.
  - unfold safe_numbers. repeat constructor; vm_compute; discriminate.
Defined.

(** ** Unreadable documents *)

Lemma same_reading_refl (s : Session) : same_reading s s.
Proof. repeat split. Qed.

Lemma same_reading_touch (t : Z) (s1 s2 : Session) :
  same_reading s1 s2 ->
  same_reading (set_lastActivity t s1) (set_lastActivity t s2).
Proof. intros (H1 & H2 & H3 & H4 & H5). repeat split; assumption. Qed.

Lemma maybeUpdateSummary_blind (a : Answers) (now : Z) (w1 w2 : World) :
  same_world w1 w2 ->
  same_result (maybeUpdateSummary a now w1) (maybeUpdateSummary a now w2).
Proof.
  intros (Hc & Ht & Hr & Hi & Hl & Hx).
  unfold maybeUpdateSummary, same_result, same_world, same_reading,
    turns_of in *.
  run_monad. rewrite Ht, Hr.
  destruct (_ <=? _)%N; [cbn; tauto|].
  destruct (summary a); cbn; rewrite Hc; tauto.
Qed.

Lemma legacy_messages_blind (env : Env) (a : Answers) (ms : list Message)
    (i : nat) (w1 w2 : World) :
  calls w1 = calls w2 ->
  exists cs o,
    legacy_messages env a i ms w1 = ({| session := session w1; calls := cs |}, o)
    /\ legacy_messages env a i ms w2
       = ({| session := session w2; calls := cs |}, o).
Proof.
  revert i w1 w2. induction ms as [|m ms IH]; intros i w1 w2 Hc.
  - exists (calls w2), (Ok []). destruct w1, w2. cbn in *. subst.
    split; reflexivity.
  - cbn [legacy_messages]. unfold lipSyncMessage. run_monad. rewrite Hc.
    destruct (textToSpeech a i) as [[]|e]; [|eauto].
    destruct (lipSync a i) as [[]|e]; [|eauto].
    destruct (audioFile a i) as [au|e]; [|eauto].
    destruct (lipsyncFile a i) as [ls|e]; [|eauto].
    match goal with
    | |- context [legacy_messages env a (S i) ms ?x1] =>
        match goal with
        | |- context [legacy_messages env a (S i) ms ?x2] =>
            tryif constr_eq x1 x2 then fail else
              destruct (IH (S i) x1 x2 eq_refl) as (cs & o & E1 & E2)
        end
    end.
    rewrite E1, E2. cbn [session]. destruct o; eauto.
Qed.

Lemma chat_routes_blind (env : Env) (rq : Request) (w1 w2 : World) :
  same_world w1 w2 ->
  same_result (chat_routes env rq w1) (chat_routes env rq w2).
Proof.
  intros (Hc & Hs). pose proof Hs as (Ht & Hr & Hi & Hl & Hx).
  unfold chat_routes.
  destruct (is_audio (message rq)).
  - set (m := or_default (message rq) "").
    destruct (parseDataUrl m) as [[[buffer mime] ext]|e0] eqn:Hp.
    2:{ erewrite !chat_audio_parse_fails by eassumption.
        split; [reflexivity | split; assumption]. }
    destruct (whisper (answers rq)) as [tr|e1] eqn:Hw.
    2:{ erewrite !chat_audio_transcription_fails by eassumption.
        split; [reflexivity|]. split; [cbn; now rewrite Hc | exact Hs]. }
    erewrite !chat_audio_run by eassumption. cbv zeta.
    assert (Hfront : front_calls rq (session w1) buffer mime ext tr
                     = front_calls rq (session w2) buffer mime ext tr).
    { unfold front_calls. now rewrite Ht, Hr. }
    assert (Hmsg : forall rp au ls,
               reply_message rq (session w1) rp au ls
               = reply_message rq (session w2) rp au ls).
    { intros. unfold reply_message. now rewrite Ht. }
    rewrite Hfront, Hc.
    destruct (reply (answers rq)) as [rp|e2];
      [|split; [reflexivity | split; [reflexivity | exact Hs]]].
    destruct (textToSpeech (answers rq) 0) as [[]|e3];
      [|split; [reflexivity | split; [reflexivity | exact Hs]]].
    destruct (lipSync (answers rq) 0) as [[]|e4];
      [|split; [reflexivity | split; [reflexivity | exact Hs]]].
    destruct (audioFile (answers rq) 0) as [au|e5];
      [|split; [reflexivity | split; [reflexivity | exact Hs]]].
    destruct (lipsyncFile (answers rq) 0) as [ls|e6];
      [|split; [reflexivity | split; [reflexivity | exact Hs]]].
    cbn [calls].
    match goal with
    | |- same_result
           (let (_, _) := maybeUpdateSummary ?a ?t ?x1 in _)
           (let (_, _) := maybeUpdateSummary _ _ ?x2 in _) =>
        assert (Hw4 : same_world x1 x2);
        [| pose proof (maybeUpdateSummary_blind a t Hw4) as Hsum;
           destruct (maybeUpdateSummary a t x1) as [v1 o1];
           destruct (maybeUpdateSummary a t x2) as [v2 o2] ]
    end.
    { split; [reflexivity|]. cbn [session]. unfold persisted.
      rewrite Ht. repeat split; assumption. }
    destruct Hsum as (Ho & Hcs & Hss). cbn [fst snd] in Ho, Hcs, Hss.
    subst o2. destruct o1 as [[]|e7].
    + split; [cbn [snd]; now rewrite Hmsg|].
      split; [exact Hcs | now apply same_reading_touch].
    + split; [reflexivity | split; assumption].
  - destruct (falsy (message rq)).
    + unfold chat_greeting. run_monad. cbn [intro_files set_lastActivity].
      rewrite Hi, Hc.
      destruct (intro_files (session w2));
        (split; [reflexivity|]); (split; [reflexivity|]);
        now apply same_reading_touch.
    + destruct (falsy (elevenLabsApiKey env) || _)%bool.
      * unfold chat_missing_keys. run_monad. rewrite Hc.
        split; [reflexivity|]. split; [reflexivity|].
        now apply same_reading_touch.
      * unfold chat_text. run_monad. rewrite Hc.
        destruct (completion (answers rq)) as [ms|e];
          [|split; [reflexivity | split; [reflexivity | exact Hs]]].
        match goal with
        | |- context [legacy_messages env ?a 0 ms ?x1] =>
            match goal with
            | |- context [legacy_messages env a 0 ms ?x2] =>
                tryif constr_eq x1 x2 then fail else
                  destruct (@legacy_messages_blind env a ms 0 x1 x2 eq_refl)
                    as (cs & o & E1 & E2)
            end
        end.
        rewrite E1, E2. cbn [session calls].
        destruct o as [ms'|e];
          (split; [reflexivity|]); (split; [reflexivity|]);
          [now apply same_reading_touch | exact Hs].
Qed.

(** X13. A missing or corrupt document is read as an empty one and never
    shows: two sessions that differ only in that (what [readJsonSafe]
    returns is the same for both documents) give the same response to any
    chat request, invoke the same collaborators with the same values, and
    again read the same afterwards. *)
Theorem unreadable_documents_read_as_empty (env : Env) (s1 s2 : Session)
    (rq : Request) :
  same_reading s1 s2 ->
  snd (serve env s1 rq) = snd (serve env s2 rq)
  /\ snd (fst (serve env s1 rq)) = snd (fst (serve env s2 rq))
  /\ same_reading (fst (fst (serve env s1 rq))) (fst (fst (serve env s2 rq))).
Proof.
  intros Hs. pose proof Hs as (Ht & Hr & Hi & Hl & Hx).
  destruct (not_live_cases s1 rq) as [Hl1|[Hx1|[Hx1 Hg]]].
  - assert (Hl2 : live s2 rq) by (destruct Hl1; split; congruence).
    rewrite (serve_live env Hl1), (serve_live env Hl2).
    assert (Hw : same_world (arrived s1 rq) (arrived s2 rq)).
    { split; [reflexivity|]. now apply same_reading_touch. }
    pose proof (chat_routes_blind env rq Hw) as (Ho & Hc & Hss).
    destruct (chat_routes env rq (arrived s1 rq)) as [v1 o1].
    destruct (chat_routes env rq (arrived s2 rq)) as [v2 o2].
    cbn [fst snd] in Ho, Hc, Hss. subst o2.
    destruct o1; cbn [finish fst snd]; auto.
  - rewrite !serve_expired by congruence.
    repeat split.
  - rewrite !serve_stale by congruence. repeat split.
Qed.

Lemma unreadable_documents_read_as_empty_witness :
  let rq := Sample.request (Some Sample.voice_note) (Sample.answering "hola")
              1000 in
  snd (serve Sample.with_keys Sample.documents_lost rq)
  = snd (serve Sample.with_keys Sample.fresh rq)
  /\ snd (fst (serve Sample.with_keys Sample.documents_lost rq))
     = snd (fst (serve Sample.with_keys Sample.fresh rq))
  /\ same_reading (fst (fst (serve Sample.with_keys Sample.documents_lost rq)))
       (fst (fst (serve Sample.with_keys Sample.fresh rq))).
Proof.
  apply (@unreadable_documents_read_as_empty Sample.with_keys
           Sample.documents_lost Sample.fresh
           (Sample.request (Some Sample.voice_note) (Sample.answering "hola")
              1000)).
  repeat split.
Defined.

(** ** The recent-turns text of a history without turns *)

Lemma length_sort_insert (k : string) (l : list string) :
  length (sort_insert k l) = S (length l).
Proof.
  induction l as [|x l IH]; cbn [sort_insert length]; [reflexivity|].
  destruct (comes_after k x); cbn [length]; [now rewrite IH | reflexivity].
Qed.

Lemma length_sort_keys (l : list string) : length (sort_keys l) = length l.
Proof.
  induction l as [|k l IH]; cbn [sort_keys length]; [reflexivity|].
  now rewrite length_sort_insert, IH.
Qed.

Lemma append_empty_r (a : string) : (a ++ "")%string = a.
Proof. induction a as [|c a IH]; cbn [append]; [reflexivity | now rewrite IH]. Qed.

Lemma fold_append_from (f : string -> string) (l : list string)
    (acc : string) :
  fold_left (fun a k => a ++ f k) l acc
  = acc ++ fold_left (fun a k => a ++ f k) l "".
Proof.
  revert acc. induction l as [|k l IH]; intros acc; cbn [fold_left].
  - now rewrite append_empty_r.
  - rewrite (IH (acc ++ f k)), (IH ("" ++ f k)). cbn [append].
    apply append_assoc.
Qed.

Lemma trimEnd_keeps_ink (c : ascii) (r : string) :
  is_space c = false -> trimEnd (String c r) <> "".
Proof.
  intros Hc. cbn [trimEnd]. rewrite Hc.
  destruct (trimEnd r); discriminate.
Qed.

(** X16. The recent-turns text is empty exactly when the history holds
    no key that starts with [conversacion_]; keys of any other form do
    not count, however many there are. *)
Theorem recent_text_empty_iff_no_turn (h : Historial) :
  formatRecentTurns h = "" <-> filter is_turn_key (keys h) = [].
Proof.
  unfold formatRecentTurns, recent_keys. split.
  - intros Hempty.
    destruct (filter is_turn_key (keys h)) as [|k0 l0] eqn:Hf;
      [reflexivity|].
    exfalso. revert Hempty.
    assert (Hlen : length (slice_last RECENT_TURNS (sort_keys (k0 :: l0)))
                   <> 0).
    { unfold slice_last. rewrite length_skipn, length_sort_keys.
      cbn [length]. unfold RECENT_TURNS. lia. }
    revert Hlen.
    destruct (slice_last RECENT_TURNS (sort_keys (k0 :: l0))) as [|k l];
      [cbn [length]; congruence|]. intros _.
    cbn [fold_left]. rewrite fold_append_from.
    unfold format_turn at 1. cbn [append nl unit_of].
    unfold trim. cbn [trimStart].
    change (is_space (ascii_of_nat 10)) with true. cbv iota.
    change (is_space "[") with false. cbv iota.
    apply trimEnd_keeps_ink. reflexivity.
  - intros ->. reflexivity.
Qed.

Example foreign_keys_are_ignored :
  formatRecentTurns [("nota", Sample.a_turn); ("conversacion", Sample.a_turn)]
  = ""
  /\ next_index [("nota", Sample.a_turn); ("conversacion", Sample.a_turn)] = 1.
Proof. split; reflexivity. Qed.

(** ** The synthesized greeting *)

(** X19. The greeting of the second program cannot fail and writes
    nothing: whatever the synthesis, the lip sync and the reads do, the
    branch answers with exactly one message carrying the greeting, the
    expression [default] and the talking animation of the number of
    stored turns modulo 3; the message has its audio and lip sync exactly
    when all four steps succeeded, and neither otherwise; the session is
    as before. *)
Theorem synthesized_greeting_never_fails (env : Env) (rq : Request)
    (w : World) :
  exists cs m,
    Variant.chat_greeting env rq w
    = ({| session := session w; calls := cs |}, Ok [m])
    /\ text m = Variant.greeting_text
    /\ facialExpression m = "default"
    /\ animation m
       = talking (length (filter is_turn_key (keys (turns_of (session w))))
                  mod 3)
    /\ (if Variant.voice_ready (answers rq)
        then audio m <> None /\ lipsync m <> None
        else audio m = None /\ lipsync m = None)
    /\ exists rest,
         cs = (calls w
               ++ TextToSpeech (elevenLabsApiKey env) voiceID (message_mp3 0)
                    Variant.greeting_text :: rest)%list
         /\ (rest = [] \/ rest = [LipSync 0]).
Proof.
  assert (Hanim :
    v_animation
      (mapEmotionToVisuals (Some "default")
         (Z.of_nat (next_index (turns_of (session w))) - 1))
    = talking (length (filter is_turn_key (keys (turns_of (session w))))
               mod 3)).
  { unfold mapEmotionToVisuals. cbn [v_animation]. unfold next_index.
    replace (Z.of_nat (length (filter is_turn_key
                                 (keys (turns_of (session w)))) + 1) - 1)%Z
      with (Z.of_nat (length (filter is_turn_key
                                (keys (turns_of (session w)))))) by lia.
    apply rotating_animation. }
  unfold Variant.chat_greeting, Variant.voice_ready, lipSyncMessage.
  run_monad. fold (turns_of (session w)).
  destruct (textToSpeech (answers rq) 0) as [[]|e1]; cbv beta iota;
    cbn [session calls].
  2:{ do 2 eexists. split; [reflexivity|]. cbn [text facialExpression
        animation audio lipsync].
      repeat split; try exact Hanim. eexists. split; [reflexivity|].
      left. reflexivity. }
  destruct (lipSync (answers rq) 0) as [[]|e2]; cbv beta iota;
    cbn [session calls].
  2:{ do 2 eexists. split; [reflexivity|]. cbn [text facialExpression
        animation audio lipsync].
      repeat split; try exact Hanim. eexists.
      split; [rewrite <- app_assoc; reflexivity|]. right. reflexivity. }
  destruct (audioFile (answers rq) 0) as [au|e3]; cbv beta iota;
    cbn [session calls].
  2:{ do 2 eexists. split; [reflexivity|]. cbn [text facialExpression
        animation audio lipsync].
      repeat split; try exact Hanim. eexists.
      split; [rewrite <- app_assoc; reflexivity|]. right. reflexivity. }
  destruct (lipsyncFile (answers rq) 0) as [ls|e4]; cbv beta iota;
    cbn [session calls];
    do 2 eexists; (split; [reflexivity|]);
    cbn [text facialExpression animation audio lipsync];
    repeat split; try exact Hanim; try discriminate;
    eexists; (split; [rewrite <- app_assoc; reflexivity|]);
    right; reflexivity.
Qed.

(** ** After a wipe *)

(** X20. The greeting does not survive a wipe: [clearAudios] removes the
    intro files with the rest of [audios/], so after a manual reset, a
    watchdog run that fires or a short-circuited chat request, a request
    without message is answered with a 500 error result (the failed
    read), whatever its message. *)
Theorem greeting_fails_after_wipe (env : Env) (s : Session) (rq : Request) :
  falsy (message rq) = true ->
  (t_gate rq - t_arrival rq < INACTIVITY_MS)%Z ->
  (forall arrival done,
      exists e,
        snd (serve env (step env s (Reset arrival done)) rq) = RespError e)
  /\ (forall now now',
        sessionExpired s = false ->
        (INACTIVITY_MS <= now - lastActivity s)%Z ->
        exists e,
          snd (serve env (step env s (Tick now now')) rq) = RespError e)
  /\ (forall rq0,
        sessionExpired s = true ->
        exists e,
          snd (serve env (step env s (Chat rq0)) rq) = RespError e).
Proof.
  intros Hf Hg.
  assert (Hw : forall t, exists e,
               snd (serve env (wiped t) rq) = RespError e).
  { intros t. rewrite serve_live by (split; [reflexivity | exact Hg]).
    rewrite (route_greeting env rq _ Hf). eexists. reflexivity. }
  split; [|split].
  - intros arrival done. cbn [step]. rewrite reset_wipes. apply Hw.
  - intros now now' Hx Hi. cbn [step].
    rewrite watchdog_wipes by assumption. apply Hw.
  - intros rq0 Hx. cbn [step]. rewrite (serve_expired env s rq0 Hx).
    apply Hw.
Qed.

Lemma greeting_fails_after_wipe_witness :
  exists e,
    snd (serve Sample.with_keys
           (step Sample.with_keys Sample.one_turn (Reset 1000 1001))
           (Sample.request None (Sample.answering "") 2000))
    = RespError e.
Proof.
  destruct (@greeting_fails_after_wipe Sample.with_keys Sample.one_turn
              (Sample.request None (Sample.answering "") 2000))
    as (H & _).
  - reflexivity.
  - vm_compute. reflexivity.
  - apply H.
Defined.

(** X21. The watchdog wipes from the threshold on and only an active
    session: with the flag lowered it wipes when at least 300000 ms have
    passed since the last activity (the bound included) and does nothing
    before; with the flag raised it does nothing however long the session
    has been idle.  It never invokes a collaborator. *)
Theorem watchdog_fires_from_threshold_on (now now' : Z) (w : World) :
  let s := session w in
  fst (watchdog now now' w)
  = {| session :=
         if negb (sessionExpired s) && (300000 <=? now - lastActivity s)%Z
         then wiped now' else s;
       calls := calls w |}
  /\ snd (watchdog now now' w) = Ok tt.
Proof.
  cbv zeta. unfold watchdog, watchdog_expire. run_monad.
  change INACTIVITY_MS with 300000%Z.
  destruct (negb (sessionExpired (session w))
            && (300000 <=? now - lastActivity (session w))%Z)%bool;
    cbn; split; try reflexivity. now destruct w.
Qed.

Example watchdog_at_the_threshold :
  run_watchdog 300000 300001 Sample.one_turn = wiped 300001
  /\ run_watchdog 299999 300001 Sample.one_turn = Sample.one_turn
  /\ run_watchdog 900000 900001 Sample.one_turn_expired
     = Sample.one_turn_expired.
Proof. repeat split. Qed.

(** ** What a reply is made of *)

(** Where the parts of a response with [ok: true] come from. *)
Lemma serve_reply_origin (env : Env) (s s' : Session) (rq : Request)
    (cs : list Call) (transcript sent emo : string) (msg : Message) :
  serve env s rq = (s', cs, RespReply transcript sent emo msg) ->
  live s rq
  /\ exists m buffer mime ext tr rp au ls,
       stages_ok rq m buffer mime ext tr rp au ls
       /\ transcript = or_default tr ""
       /\ sent = sent_label (answers rq)
       /\ emo = emo_label (answers rq)
       /\ msg = reply_message rq s rp au ls.
Proof.
  intros E.
  destruct (not_live_cases s rq) as [Hl|[Hx|[Hx Hg]]].
  2:{ rewrite (serve_expired env _ rq Hx) in E. discriminate E. }
  2:{ rewrite (serve_stale env _ rq Hx Hg) in E. discriminate E. }
  split; [exact Hl|].
  pose proof E as E0. apply serve_cases in E0.
  destruct E0 as [(Hn & _)|(_ & _ & _ & _ & _ & [H|H])];
    [contradiction | destruct H as (_ & _ & H); discriminate H |].
  destruct H as (_ & _ & Ha & _).
  destruct (message rq) as [m|] eqn:Hm; [|discriminate Ha].
  cbn [is_audio] in Ha.
  rewrite (serve_live env Hl) in E.
  erewrite route_audio in E by eassumption.
  destruct (parseDataUrl m) as [[[buffer mime] ext]|e0] eqn:Hp.
  2:{ erewrite chat_audio_parse_fails in E by eassumption. discriminate E. }
  destruct (whisper (answers rq)) as [tr|e1] eqn:Hw.
  2:{ erewrite chat_audio_transcription_fails in E by eassumption.
      discriminate E. }
  erewrite chat_audio_run in E by eassumption. cbv zeta in E.
  destruct (reply (answers rq)) as [rp|e2] eqn:H1; [|discriminate E].
  destruct (textToSpeech (answers rq) 0) as [[]|e3] eqn:H2;
    [|discriminate E].
  destruct (lipSync (answers rq) 0) as [[]|e4] eqn:H3; [|discriminate E].
  destruct (audioFile (answers rq) 0) as [au|e5] eqn:H4; [|discriminate E].
  destruct (lipsyncFile (answers rq) 0) as [ls|e6] eqn:H5;
    [|discriminate E].
  destruct (maybeUpdateSummary _ _ _) as [w5 [[]|e7]]; [|discriminate E].
  cbn [finish] in E. injection E as _ _ <- <- <- <-.
  exists m, buffer, mime, ext, tr, rp, au, ls.
  split; [unfold stages_ok; rewrite Hm; repeat split; assumption|].
  repeat split.
Qed.

Lemma lower_unit_idempotent (c : ascii) :
  lower_unit (lower_unit c) = lower_unit c.
Proof. destruct c as [[] [] [] [] [] [] [] []]; reflexivity. Qed.

Lemma toLowerCase_idempotent (x : string) :
  toLowerCase (toLowerCase x) = toLowerCase x.
Proof.
  induction x as [|c x IH]; cbn [toLowerCase]; [reflexivity|].
  now rewrite lower_unit_idempotent, IH.
Qed.

Lemma trimEnd_idempotent (x : string) : trimEnd (trimEnd x) = trimEnd x.
Proof.
  induction x as [|c x IH]; [reflexivity|].
  cbn [trimEnd]. destruct (trimEnd x) as [|d t] eqn:E.
  - destruct (is_space c) eqn:Hc; [reflexivity|].
    cbn [trimEnd]. now rewrite Hc.
  - cbn [trimEnd] in *. rewrite IH. reflexivity.
Qed.

Lemma trimStart_clean (x : string) : starts_clean (trimStart x).
Proof.
  induction x as [|c x IH]; cbn [trimStart]; [exact I|].
  destruct (is_space c) eqn:Hc; [exact IH | exact Hc].
Qed.

Lemma trimEnd_clean (x : string) : starts_clean x -> starts_clean (trimEnd x).
Proof.
  destruct x as [|c x]; [trivial|]. cbn [starts_clean trimEnd]. intros Hc.
  destruct (trimEnd x); [rewrite Hc|]; exact Hc.
Qed.

Lemma trimStart_of_clean (x : string) : starts_clean x -> trimStart x = x.
Proof.
  destruct x as [|c x]; [reflexivity|]. cbn [starts_clean trimStart].
  now intros ->.
Qed.

Lemma trim_idempotent (x : string) : trim (trim x) = trim x.
Proof.
  unfold trim.
  rewrite trimStart_of_clean
    by (apply trimEnd_clean, trimStart_clean).
  apply trimEnd_idempotent.
Qed.

(** X22. What a reply carries and stores is normalized: the sentiment and
    emotion labels are in lower case (a second [toLowerCase] changes
    nothing) and the reply text has no white space at either end; when
    the emotion label is empty the facial expression is [default]. *)
Theorem reply_fields_are_normalized (env : Env) (s s' : Session)
    (rq : Request) (cs : list Call) (transcript sent emo : string)
    (msg : Message) :
  serve env s rq = (s', cs, RespReply transcript sent emo msg) ->
  toLowerCase sent = sent
  /\ toLowerCase emo = emo
  /\ trim (text msg) = text msg
  /\ (emo = "" -> facialExpression msg = "default").
Proof.
  intros E. apply serve_reply_origin in E.
  destruct E as (_ & m & buffer & mime & ext & tr & rp & au & ls
                 & _ & _ & -> & -> & ->).
  split; [|split; [|split]].
  - unfold sent_label. destruct (sentiment (answers rq));
      [apply toLowerCase_idempotent | reflexivity].
  - unfold emo_label. destruct (mia_predict (answers rq));
      [apply toLowerCase_idempotent | reflexivity].
  - unfold reply_message. cbn [text]. apply trim_idempotent.
  - intros H. unfold reply_message. cbn [facialExpression].
    rewrite H. reflexivity.
Qed.

Lemma reply_fields_are_normalized_witness :
  toLowerCase "negativo" = "negativo"
  /\ toLowerCase "tristeza" = "tristeza"
  /\ trim (text {| text := "Te escucho."; audio := Some "QUJD";
                   lipsync := Some "{}"; facialExpression := "sad";
                   animation := "Talking_1" |})
     = text {| text := "Te escucho."; audio := Some "QUJD";
               lipsync := Some "{}"; facialExpression := "sad";
               animation := "Talking_1" |}
  /\ ("tristeza" = "" ->
      facialExpression {| text := "Te escucho."; audio := Some "QUJD";
                          lipsync := Some "{}"; facialExpression := "sad";
                          animation := "Talking_1" |} = "default").
Proof.
  apply (@reply_fields_are_normalized Sample.with_keys Sample.one_turn
           (fst (fst (serve Sample.with_keys Sample.one_turn
                        (Sample.request (Some Sample.voice_note)
                           (Sample.answering "hola") 1000))))
           (Sample.request (Some Sample.voice_note)
              (Sample.answering "hola") 1000)
           (snd (fst (serve Sample.with_keys Sample.one_turn
                        (Sample.request (Some Sample.voice_note)
                           (Sample.answering "hola") 1000))))
           "hola" "negativo" "tristeza").
  vm_compute. reflexivity.
Defined.

(** ** Keys and indices *)

(** X23. Turn keys encode their index and decode to it: the key [/chat]
    builds for index [n] is recognized as a turn key, the number
    [formatRecentTurns] parses out of it is [n], two indices never share a
    key, and what is stored under it is what is read back. *)
Theorem turn_key_round_trip (n : nat) :
  is_turn_key (turn_key n) = true
  /\ key_number (turn_key n) = Some (Z.of_nat n)
  /\ (forall m, turn_key n = turn_key m <-> n = m)
  /\ (forall (o : Historial) t, obj_get (obj_set o (turn_key n) t) (turn_key n)
                                = Some t)
  /\ (forall (o : Historial) t m,
        m <> n ->
        obj_get (obj_set o (turn_key n) t) (turn_key m)
        = obj_get o (turn_key m)).
Proof.
  split; [apply is_turn_key_turn_key|].
  split; [apply key_number_turn_key|].
  split; [intros m; split; [apply turn_key_inj | now intros ->]|].
  split; [intros o t; apply obj_get_set|].
  intros o t m Hne. apply obj_get_set_other.
  intros E. apply turn_key_inj in E. congruence.
Qed.

(** ** What the generation call is given *)

(** X24. With a transcript in hand, the generation call is given the
    stored context as it was before this request: the abstract of the
    Summary Record (the empty string when there is none or the document
    is unreadable), the recent-turns text of the stored turns, which do
    not yet hold the utterance being answered, and the number of stored
    entries. *)
Theorem generation_sees_stored_context (env : Env) (s : Session)
    (rq : Request) (m buffer mime ext : string) (tr : option string) :
  live s rq ->
  message rq = Some m ->
  startsWith m "data:audio" = true ->
  parseDataUrl m = Ok (buffer, mime, ext) ->
  whisper (answers rq) = Ok tr ->
  nth_error (snd (fst (serve env s rq))) 3
  = Some (ReplyGeneration
            (match resumen_json s with
             | Stored (Some sm) => resumen sm
             | _ => ""
             end)
            (formatRecentTurns (turns_of s))
            (or_default tr "")
            (sent_label (answers rq)) (emo_label (answers rq))
            (length (turns_of s))).
Proof.
  intros Hl Hm Ha Hp Hw.
  destruct (audio_branch_continues env Hl Hm Ha Hp Hw)
    as (s' & cs & r & rest & E & Hcs & _).
  rewrite E. cbn [fst snd]. rewrite Hcs. unfold front_calls.
  cbn [Datatypes.app nth_error]. rewrite length_keys.
  do 2 f_equal. destruct (resumen_json s) as [|[sm|]]; reflexivity.
Qed.

Lemma generation_sees_stored_context_witness :
  nth_error
    (snd (fst (serve Sample.with_keys Sample.one_turn
                 Sample.note_classifiers_down))) 3
  = Some (ReplyGeneration
            (match resumen_json Sample.one_turn with
             | Stored (Some sm) => resumen sm
             | _ => ""
             end)
            (formatRecentTurns (turns_of Sample.one_turn))
            (or_default (Some "tengo un mal dia") "")
            (sent_label (answers Sample.note_classifiers_down))
            (emo_label (answers Sample.note_classifiers_down))
            (length (turns_of Sample.one_turn))).
Proof.
  apply (@generation_sees_stored_context Sample.with_keys Sample.one_turn
           Sample.note_classifiers_down Sample.voice_note
           "AAAA" "audio/webm" "webm" (Some "tengo un mal dia")).
  - apply sample_request_live. reflexivity.
  - reflexivity.
  - reflexivity.
  - reflexivity.
  - reflexivity.
Defined.

(** X25. When the generation of the reply fails, the pipeline stops
    there: the request answers with the 500 error result carrying the
    model's error message, the only collaborators invoked are
    transcription, the two classifiers and the generation itself, no
    speech is synthesized, and the session is as the middleware left
    it. *)
Theorem generation_failure_stops_pipeline (env : Env) (s : Session)
    (rq : Request) (m buffer mime ext e : string) (tr : option string) :
  live s rq ->
  message rq = Some m ->
  startsWith m "data:audio" = true ->
  parseDataUrl m = Ok (buffer, mime, ext) ->
  whisper (answers rq) = Ok tr ->
  reply (answers rq) = Fail e ->
  serve env s rq
  = (set_lastActivity (t_arrival rq) s,
     [ Transcription buffer ("audio." ++ ext) mime;
       Sentiment (or_default tr "");
       MiaPredict (or_default tr "") (sent_label (answers rq));
       ReplyGeneration (summary_text (readJsonSafe (resumen_json s) None))
         (formatRecentTurns (turns_of s)) (or_default tr "")
         (sent_label (answers rq)) (emo_label (answers rq))
         (length (keys (turns_of s))) ],
     RespError e).
Proof.
  intros Hl Hm Ha Hp Hw Hr.
  rewrite (serve_live env Hl).
  erewrite route_audio by eassumption.
  erewrite chat_audio_run by eassumption. cbv zeta. rewrite Hr.
  reflexivity.
Qed.

Lemma generation_failure_stops_pipeline_witness :
  let rq := Sample.request (Some Sample.voice_note)
              (Sample.set_reply (Fail "generation failed")
                 (Sample.answering "tengo un mal dia")) 1000 in
  let s := Sample.one_turn in
  serve Sample.with_keys s rq
  = (set_lastActivity (t_arrival rq) s,
     [ Transcription "AAAA" ("audio." ++ "webm") "audio/webm";
       Sentiment (or_default (Some "tengo un mal dia") "");
       MiaPredict (or_default (Some "tengo un mal dia") "")
         (sent_label (answers rq));
       ReplyGeneration (summary_text (readJsonSafe (resumen_json s) None))
         (formatRecentTurns (turns_of s))
         (or_default (Some "tengo un mal dia") "")
         (sent_label (answers rq)) (emo_label (answers rq))
         (length (keys (turns_of s))) ],
     RespError "generation failed").
Proof.
  apply (@generation_failure_stops_pipeline Sample.with_keys Sample.one_turn
           (Sample.request (Some Sample.voice_note)
              (Sample.set_reply (Fail "generation failed")
                 (Sample.answering "tengo un mal dia")) 1000)
           Sample.voice_note "AAAA" "audio/webm" "webm" "generation failed"
           (Some "tengo un mal dia")).
  - apply sample_request_live. reflexivity.
  - reflexivity.
  - reflexivity.
  - reflexivity.
  - reflexivity.
  - reflexivity.
Defined.
